(** * neo4py: statement builder, identifier escaping, session and bookmark
      manager, batch executor

    A shallow embedding of the Python package [neo4py] and the properties
    its specification states about it.  Python strings are [string]s,
    dictionaries are [gmap]s, enumerations are inductive types, exceptions
    are the [Raise] branch of [Exc], and the connector object is a record
    that the operations pass along explicitly. *)

From Stdlib Require Import ZArith Lia String Ascii List DecimalString.
From Stdlib Require Import OrderedTypeEx.
From stdpp Require Import base gmap strings list sorting.

Open Scope string_scope.
Open Scope list_scope.
Open Scope nat_scope.

(** ** Python exceptions and fallible computations *)

Inductive exn :=
  | RuntimeError (msg : string)
  | ValueError (msg : string)
  | KeyError (msg : string)
  | TypeError (msg : string)
  | AttributeError (msg : string)
  | IndexError (msg : string)
  | AssertionError
  | DriverError (msg : string).

Inductive Exc (A : Type) :=
  | Return (a : A)
  | Raise (e : exn).
Arguments Return {A} a.
Arguments Raise {A} e.

#[global] Instance Exc_ret : MRet Exc := λ A a, Return a.
#[global] Instance Exc_bind : MBind Exc := λ A B f c,
  match c with Return a => f a | Raise e => Raise e end.
#[global] Instance Exc_fmap : FMap Exc := λ A B f c,
  match c with Return a => Return (f a) | Raise e => Raise e end.

Definition returned {A} (c : Exc A) : bool :=
  match c with Return _ => true | Raise _ => false end.

(** Characters that cannot be written inside a string literal. *)
Definition backtick : ascii := "`"%char.
Definition dquote : ascii := "034"%char.
Definition backslash : ascii := "\"%char.
Definition nl : string := String "010"%char "".

(** * neo4py/_common.py *)

Module NodeCreationMode.
Inductive t :=
  | CREATE
  | MERGE_ON_ID_IGNORE_ON_MATCH
  | MERGE_ON_ID_SET_ATTR_ON_MATCH
  | MERGE_ON_ALL_ATTRIBUTES.
#[global] Instance eq_dec : EqDecision t.
Proof. solve_decision. Defined.
End NodeCreationMode.

Module RelNodeCreationMode.
Inductive t := MERGE | MATCH | CREATE.
#[global] Instance eq_dec : EqDecision t.
Proof. solve_decision. Defined.
End RelNodeCreationMode.

Module RelCreationMode.
Inductive t := CREATE | MERGE.
#[global] Instance eq_dec : EqDecision t.
Proof. solve_decision. Defined.
End RelCreationMode.

(** A member of any of the three enumerations, as a Python value.  Members
    of different [Enum] classes are different objects: [==] and [in] never
    identify them, whatever their [value]. *)
Inductive enum_member :=
  | NodeMode (m : NodeCreationMode.t)
  | RelNodeMode (m : RelNodeCreationMode.t)
  | RelMode (m : RelCreationMode.t).

#[global] Instance enum_member_eq_dec : EqDecision enum_member.
Proof. solve_decision. Defined.

(** [x in (a, b, ...)] *)
Definition py_in (x : enum_member) (tuple : list enum_member) : bool :=
  existsb (λ y, bool_decide (x = y)) tuple.

(** [str_.replace(old, new)] for a one-character [old]. *)
Fixpoint replace_char (old : ascii) (new : string) (str_ : string) : string :=
  match str_ with
  | EmptyString => EmptyString
  | String c rest =>
      if Ascii.eqb c old then new +:+ replace_char old new rest
      else String c (replace_char old new rest)
  end.

Definition escape (str_ : string) : string :=
  "`" +:+ replace_char backtick "``" str_ +:+ "`".

Definition escaped_str (str_ : string) : string :=
  String dquote
    (replace_char dquote (String backslash (String dquote ""))
       (replace_char backslash "\\" str_)
     +:+ String dquote "").

(** ** [str.format]

    The templates of this package use three forms only: the doubled braces
    [{{] and [}}], the automatically numbered field [{}] and a keyword field
    [{name}].  The scanner below implements these; a field name is looked up
    among the keyword arguments as it is written. *)

Inductive fmt_state :=
  | FmtText
  | FmtOpen
  | FmtField (name : string)
  | FmtClose.

Fixpoint kw_lookup (name : string) (kwargs : list (string * string))
  : option string :=
  match kwargs with
  | [] => None
  | (k, v) :: rest => if String.eqb k name then Some v else kw_lookup name rest
  end.

Fixpoint format_scan (st : fmt_state) (tmpl : string)
    (args : list string) (kwargs : list (string * string)) : Exc string :=
  match tmpl with
  | EmptyString =>
      match st with
      | FmtText => Return ""
      | FmtOpen => Raise (ValueError "Single '{' encountered in format string")
      | FmtField _ => Raise (ValueError "expected '}' before end of string")
      | FmtClose => Raise (ValueError "Single '}' encountered in format string")
      end
  | String c rest =>
      match st with
      | FmtText =>
          if Ascii.eqb c "{" then format_scan FmtOpen rest args kwargs
          else if Ascii.eqb c "}" then format_scan FmtClose rest args kwargs
          else String c <$> format_scan FmtText rest args kwargs
      | FmtOpen =>
          if Ascii.eqb c "{" then
            String "{" <$> format_scan FmtText rest args kwargs
          else if Ascii.eqb c "}" then
            match args with
            | a :: args' =>
                String.append a <$> format_scan FmtText rest args' kwargs
            | [] =>
                Raise (IndexError
                         "Replacement index out of range for positional args")
            end
          else format_scan (FmtField (String c "")) rest args kwargs
      | FmtField name =>
          if Ascii.eqb c "}" then
            match kw_lookup name kwargs with
            | Some v => String.append v <$> format_scan FmtText rest args kwargs
            | None => Raise (KeyError name)
            end
          else format_scan (FmtField (name +:+ String c "")) rest args kwargs
      | FmtClose =>
          if Ascii.eqb c "}" then
            String "}" <$> format_scan FmtText rest args kwargs
          else Raise (ValueError "Single '}' encountered in format string")
      end
  end.

Definition str_format (tmpl : string) (args : list string)
    (kwargs : list (string * string)) : Exc string :=
  format_scan FmtText tmpl args kwargs.

Definition format_escaped (str_ : string) (args : list string)
    (kwargs : list (string * string)) : Exc string :=
  str_format str_ (map escape args) (map (λ kv, (kv.1, escape kv.2)) kwargs).

Definition format_escaped_str (str_ : string) (args : list string)
    (kwargs : list (string * string)) : Exc string :=
  str_format str_ (map escaped_str args)
    (map (λ kv, (kv.1, escaped_str kv.2)) kwargs).

(** [m.get(k, k)] *)
Definition dict_get (m : gmap string string) (k : string) : string :=
  default k (m !! k).

(** [str(i)] and [f"{i}"] for an [int]. *)
Definition str_of_int (i : Z) : string := NilEmpty.string_of_int (Z.to_int i).

(** [all_ok cs]: evaluate a generator of fallible values from the left. *)
Fixpoint all_ok {A} (cs : list (Exc A)) : Exc (list A) :=
  match cs with
  | [] => Return []
  | c :: rest => a ← c; l ← all_ok rest; Return (a :: l)
  end.

(** * neo4py/_cypher.py *)

Module Cypher.
Import NodeCreationMode.

(** [enumerate(attributes)] *)
Fixpoint enumerate_from {A} (i : Z) (l : list A) : list (Z * A) :=
  match l with
  | [] => []
  | a :: rest => (i, a) :: enumerate_from (i + 1) rest
  end.
Definition enumerate {A} (l : list A) : list (Z * A) := enumerate_from 0 l.

(** [zip(indexes, attributes)] stops at the shorter of the two. *)
Fixpoint zip {A B} (l : list A) (k : list B) : list (A * B) :=
  match l, k with
  | a :: l', b :: k' => (a, b) :: zip l' k'
  | _, _ => []
  end.

Definition row_as_dict (attributes : list string) (in_name out_name : string)
    (attribute_indexes : option (list Z)) : Exc string :=
  let attr_idx_iter :=
    match attribute_indexes with
    | Some (i :: idx) => zip (i :: idx) attributes
    | _ => enumerate attributes
    end in
  attribute_pairs ←
    all_ok (map (λ ik : Z * string,
              format_escaped
                ("{key}: " +:+ escape in_name
                 +:+ "[" +:+ str_of_int ik.1 +:+ "]")
                [] [("key", ik.2)])
            attr_idx_iter);
  Return ("{" +:+ String.concat ", " attribute_pairs
          +:+ "} AS " +:+ escape out_name).

Definition inline_attributes (attributes : list string)
    (row_attr_map : option (gmap string string)) (row_name : string)
    : string :=
  let row_attr_map := default ∅ row_attr_map in
  match attributes with
  | [] => ""
  | _ =>
      let attribute_pairs :=
        map (λ key,
               escape (default key (row_attr_map !! key)) +:+ ": "
               +:+ escape row_name +:+ "[" +:+ escaped_str key +:+ "]")
            attributes in
      "{" +:+ String.concat ", " attribute_pairs +:+ "}"
  end.

(** [attributes.startswith(" ")] *)
Definition startswith_space (s : string) : bool :=
  match s with
  | String c _ => Ascii.eqb c " "
  | EmptyString => false
  end.

Definition node_pattern (labels : option (list string))
    (attributes : string) (name : string) : string :=
  let labels := default [] labels in
  let labels := String.concat "" (map (λ l, ":" +:+ escape l) labels) in
  let attributes :=
    if negb (String.eqb attributes "") && negb (startswith_space attributes)
    then " " +:+ attributes else attributes in
  "(" +:+ name +:+ labels +:+ attributes +:+ ")".

Definition rel_pattern (src_node_pattern dst_node_pattern : string)
    (labels : option (list string)) (attributes : string) (name : string)
    (directed : bool) : string :=
  let labels := default [] labels in
  let labels := String.concat "" (map (λ l, ":" +:+ escape l) labels) in
  let arrow_tip := if directed then ">" else "" in
  src_node_pattern +:+ "-[" +:+ name +:+ labels +:+ " " +:+ attributes
  +:+ "]-" +:+ arrow_tip +:+ dst_node_pattern.

(** [inline_attributes((id_,), row_attr_map)]: with [id_ = None] the key
    [None] has no [replace] method. *)
Definition inline_id (id_ : option string)
    (row_attr_map : gmap string string) : Exc string :=
  match id_ with
  | Some k => Return (inline_attributes [k] (Some row_attr_map) "row")
  | None =>
      Raise (AttributeError "'NoneType' object has no attribute 'replace'")
  end.

Definition nodes_from_rows (attributes : list string) (id_ : option string)
    (labels : list string) (creation_mode : NodeCreationMode.t)
    (row_attr_map : gmap string string) : Exc string :=
  let set_statement := "SET n = row" in
  '(create_statement, set_statement) ←
    match creation_mode with
    | CREATE =>
        Return ("CREATE " +:+ node_pattern (Some labels) "" "n" +:+ nl,
                set_statement)
    | MERGE_ON_ID_IGNORE_ON_MATCH =>
        attrs ← inline_id id_ row_attr_map;
        Return ("MERGE " +:+ node_pattern (Some labels) attrs "n" +:+ nl,
                "ON CREATE" +:+ nl +:+ "  " +:+ set_statement)
    | MERGE_ON_ID_SET_ATTR_ON_MATCH =>
        attrs ← inline_id id_ row_attr_map;
        Return ("MERGE " +:+ node_pattern (Some labels) attrs "n" +:+ nl,
                set_statement)
    | MERGE_ON_ALL_ATTRIBUTES =>
        Return ("MERGE "
                +:+ node_pattern (Some labels)
                      (inline_attributes attributes (Some row_attr_map) "row")
                      "n"
                +:+ nl,
                "")
    end;
  with_dict ← row_as_dict attributes "row" "row" None;
  let with_statement := "WITH " +:+ with_dict +:+ nl in
  Return ("UNWIND $rows AS row" +:+ nl
          +:+ with_statement
          +:+ create_statement
          +:+ set_statement).
(** [all(a in all_attributes for a in attributes)] *)
Definition all_in (attributes all_attributes : list string) : bool :=
  forallb (λ a, existsb (String.eqb a) all_attributes) attributes.

Definition rels_from_rows
    (src_attributes dst_attributes rel_attributes all_attributes : list string)
    (src_labels dst_labels rel_labels : list string)
    (src_creation_mode dst_creation_mode : RelNodeCreationMode.t)
    (rel_creation_mode : RelCreationMode.t)
    (row_attr_map : gmap string string) : Exc string :=
  if negb (all_in src_attributes all_attributes) then Raise AssertionError
  else if negb (all_in dst_attributes all_attributes) then Raise AssertionError
  else if negb (all_in rel_attributes all_attributes) then Raise AssertionError
  else
    let src_node_pattern :=
      node_pattern (Some src_labels)
        (inline_attributes src_attributes (Some row_attr_map) "row") "src" in
    let src_create_statement :=
      match src_creation_mode with
      | RelNodeCreationMode.MERGE => "MERGE " +:+ src_node_pattern +:+ nl
      | RelNodeCreationMode.MATCH => "MATCH " +:+ src_node_pattern +:+ nl
      | RelNodeCreationMode.CREATE => "CREATE " +:+ src_node_pattern +:+ nl
      end in
    let dst_node_pattern :=
      node_pattern (Some dst_labels)
        (inline_attributes dst_attributes (Some row_attr_map) "row") "dst" in
    let dst_create_statement :=
      match dst_creation_mode with
      | RelNodeCreationMode.MERGE => "MERGE " +:+ dst_node_pattern +:+ nl
      | RelNodeCreationMode.MATCH => "MATCH " +:+ dst_node_pattern +:+ nl
      | RelNodeCreationMode.CREATE => "CREATE " +:+ dst_node_pattern +:+ nl
      end in
    let rel_pattern :=
      rel_pattern (node_pattern None "" "src") (node_pattern None "" "dst")
        (Some rel_labels)
        (inline_attributes rel_attributes (Some row_attr_map) "row")
        "r" true in
    let rel_create_statement :=
      match rel_creation_mode with
      | RelCreationMode.CREATE => "CREATE " +:+ rel_pattern
      | RelCreationMode.MERGE => "MERGE " +:+ rel_pattern
      end in
    with_dict ← row_as_dict all_attributes "row" "row" None;
    let with_statement := "WITH " +:+ with_dict +:+ nl in
    Return ("UNWIND $rows AS row" +:+ nl
            +:+ with_statement
            +:+ src_create_statement
            +:+ dst_create_statement
            +:+ rel_create_statement).
End Cypher.

(** * The external session layer

    The driver is the environment.  Every call the connector makes to it is
    recorded in a log, and what the database answers (the result of a
    transaction, the bookmark of a session) is a function of that log. *)

Inductive pyval :=
  | PyNone
  | PyBool (b : bool)
  | PyInt (z : Z)
  | PyStr (s : string).

Abbreviation row := (list pyval).
Abbreviation db_name := (option string).
Abbreviation token := string.

Record Result := {
  keys : list string;
  records : list row;
}.

Inductive access := READ | WRITE.

Inductive event :=
  | SessionOpen (database : db_name) (bookmarks : list token)
  | TxRun (a : access) (cypher : string) (params : option (list row))
  | LastBookmark (bm : token)
  | SessionClose.

Record Driver := {
  run_tx : list event → Exc Result;
  last_bookmark : list event → token;
}.

(** * neo4py/_base_connector.py *)

Record Job := {
  job_access : access;
  job_cypher : string;
  job_params : option (list row);
  job_database : db_name;
}.

(** A future of the thread pool: the job it was submitted with and, once a
    worker has run it, how the job ended. *)
Record Future := {
  fut_job : Job;
  fut_outcome : option (Exc Result);
}.

(** The connector object.  [_futures] holds references into [pool], the
    futures the thread pool has handed out; [warnings] collects what
    [warnings.warn] was called with. *)
Record Connector := {
  _bookmarks : gmap db_name (list token);
  _parallel_bookmarks : gmap db_name (list token);
  _parallel_mode : bool;
  _futures : list nat;
  pool : list Future;
  driver_log : list event;
  warnings : list string;
}.

Definition set_bookmarks (f : gmap db_name (list token) → gmap db_name (list token))
    (self : Connector) : Connector :=
  {| _bookmarks := f (_bookmarks self);
     _parallel_bookmarks := _parallel_bookmarks self;
     _parallel_mode := _parallel_mode self;
     _futures := _futures self;
     pool := pool self;
     driver_log := driver_log self;
     warnings := warnings self |}.

Definition set_parallel_bookmarks
    (f : gmap db_name (list token) → gmap db_name (list token))
    (self : Connector) : Connector :=
  {| _bookmarks := _bookmarks self;
     _parallel_bookmarks := f (_parallel_bookmarks self);
     _parallel_mode := _parallel_mode self;
     _futures := _futures self;
     pool := pool self;
     driver_log := driver_log self;
     warnings := warnings self |}.

Definition set_parallel_mode (b : bool) (self : Connector) : Connector :=
  {| _bookmarks := _bookmarks self;
     _parallel_bookmarks := _parallel_bookmarks self;
     _parallel_mode := b;
     _futures := _futures self;
     pool := pool self;
     driver_log := driver_log self;
     warnings := warnings self |}.

Definition set_futures (l : list nat) (self : Connector) : Connector :=
  {| _bookmarks := _bookmarks self;
     _parallel_bookmarks := _parallel_bookmarks self;
     _parallel_mode := _parallel_mode self;
     _futures := l;
     pool := pool self;
     driver_log := driver_log self;
     warnings := warnings self |}.

Definition set_pool (p : list Future) (self : Connector) : Connector :=
  {| _bookmarks := _bookmarks self;
     _parallel_bookmarks := _parallel_bookmarks self;
     _parallel_mode := _parallel_mode self;
     _futures := _futures self;
     pool := p;
     driver_log := driver_log self;
     warnings := warnings self |}.

Definition driver_call (e : event) (self : Connector) : Connector :=
  {| _bookmarks := _bookmarks self;
     _parallel_bookmarks := _parallel_bookmarks self;
     _parallel_mode := _parallel_mode self;
     _futures := _futures self;
     pool := pool self;
     driver_log := driver_log self ++ [e];
     warnings := warnings self |}.

Definition warn (msg : string) (self : Connector) : Connector :=
  {| _bookmarks := _bookmarks self;
     _parallel_bookmarks := _parallel_bookmarks self;
     _parallel_mode := _parallel_mode self;
     _futures := _futures self;
     pool := pool self;
     driver_log := driver_log self;
     warnings := warnings self ++ [msg] |}.

(** [Neo4jConnectorBase.__init__] *)
Definition new_connector : Connector :=
  {| _bookmarks := ∅;
     _parallel_bookmarks := ∅;
     _parallel_mode := false;
     _futures := [];
     pool := [];
     driver_log := [];
     warnings := [] |}.

(** [d[db]] on a [defaultdict(list)]: a missing key is entered with a new
    empty list. *)
Definition defaultdict_getitem (db : db_name) (d : gmap db_name (list token))
  : list token * gmap db_name (list token) :=
  match d !! db with
  | Some l => (l, d)
  | None => ([], <[db := []]> d)
  end.

(** What [self._bookmarks[db]] evaluates to. *)
Definition current_bookmarks (self : Connector) (db : db_name) : list token :=
  (defaultdict_getitem db (_bookmarks self)).1.

Definition sequential_msg : string :=
  "Cannot execute this operation within parallelism block.".
Definition parallel_msg : string :=
  "Cannot execute this operation outside parallelism blocks.".

(** A method of the connector, or the body of a [with] statement: it may
    change the connector and either returns or raises.  What it changed
    before raising stays changed. *)
Definition M (A : Type) : Type := Connector → Exc A * Connector.

Definition ret {A} (a : A) : M A := λ self, (Return a, self).
Definition raise {A} (e : exn) : M A := λ self, (Raise e, self).
Definition bind {A B} (m : M A) (k : A → M B) : M B := λ self,
  match m self with
  | (Return a, self) => k a self
  | (Raise e, self) => (Raise e, self)
  end.
Definition lift {A} (c : Exc A) : M A := λ self, (c, self).
Definition modify (f : Connector → Connector) : M () := λ self,
  (Return (), f self).

Notation "'do' x <- m ; k" := (bind m (λ x, k))
  (at level 10, x name, m at level 100, k at level 200,
   format "'[v' 'do'  x  <-  m ; '/' k ']'").
Notation "'do' ' p <- m ; k" := (bind m (λ x, let 'p := x in k))
  (at level 10, p pattern, m at level 100, k at level 200,
   format "'[v' 'do'  ' p  <-  m ; '/' k ']'").
Notation "m ;; k" := (bind m (λ _, k))
  (at level 100, k at level 200, right associativity).

(** [for x in l: f(x)] *)
Fixpoint for_each {A B} (l : list A) (f : A → M B) : M () :=
  match l with
  | [] => ret ()
  | x :: rest => f x ;; for_each rest f
  end.

Section connector.
Variable drv : Driver.

Definition _get_sequential_session {A} (db : db_name) (block : M A) : M A :=
  λ self,
  if _parallel_mode self then (Raise (RuntimeError sequential_msg), self)
  else
    let '(bookmarks, d) := defaultdict_getitem db (_bookmarks self) in
    let self := set_bookmarks (λ _, d) self in
    let self := driver_call (SessionOpen db bookmarks) self in
    match block self with
    | (Return a, self) =>
        let bm := last_bookmark drv (driver_log self) in
        let self := driver_call (LastBookmark bm) self in
        let self := set_bookmarks (insert db [bm]) self in
        let self := set_parallel_bookmarks (delete db) self in
        (Return a, driver_call SessionClose self)
    | (Raise e, self) => (Raise e, driver_call SessionClose self)
    end.

Definition _get_parallel_session {A} (db : db_name) (block : M A) : M A :=
  λ self,
  if negb (_parallel_mode self) then (Raise (RuntimeError parallel_msg), self)
  else
    let '(bookmarks, d) := defaultdict_getitem db (_bookmarks self) in
    let self := set_bookmarks (λ _, d) self in
    let self := driver_call (SessionOpen db bookmarks) self in
    match block self with
    | (Return a, self) =>
        let bm := last_bookmark drv (driver_log self) in
        let self := driver_call (LastBookmark bm) self in
        let '(pending, d) :=
          defaultdict_getitem db (_parallel_bookmarks self) in
        let self :=
          set_parallel_bookmarks (λ _, <[db := pending ++ [bm]]> d) self in
        (Return a, driver_call SessionClose self)
    | (Raise e, self) => (Raise e, driver_call SessionClose self)
    end.

Definition _query (tx_fn : access) (cypher : string)
    (params : option (list row)) : M Result := λ self,
  let self := driver_call (TxRun tx_fn cypher params) self in
  (run_tx drv (driver_log self), self).

Definition read_query (cypher : string) (params : option (list row))
    (database : db_name) : M Result :=
  _get_sequential_session database (_query READ cypher params).

Definition write_query (cypher : string) (params : option (list row))
    (database : db_name) : M Result :=
  _get_sequential_session database (_query WRITE cypher params).

(** The function [job] that the parallel queries hand to the pool. *)
Definition job (j : Job) : M Result :=
  _get_parallel_session (job_database j)
    (_query (job_access j) (job_cypher j) (job_params j)).

(** [self._thread_pool.submit(job)]: a new future, not yet run. *)
Definition submit (j : Job) : M nat := λ self,
  (Return (length (pool self)),
   set_pool (pool self ++ [{| fut_job := j; fut_outcome := None |}]) self).

Definition parallel_read_query (cypher : string) (params : option (list row))
    (database : db_name) : M nat :=
  do future <- submit {| job_access := READ; job_cypher := cypher;
                         job_params := params; job_database := database |};
  modify (λ self, set_futures (_futures self ++ [future]) self) ;;
  ret future.

Definition parallel_write_query (cypher : string) (params : option (list row))
    (database : db_name) : M nat :=
  do future <- submit {| job_access := WRITE; job_cypher := cypher;
                         job_params := params; job_database := database |};
  modify (λ self, set_futures (_futures self ++ [future]) self) ;;
  ret future.

(** A worker thread of the pool runs the job of future [i], if it has not
    been run yet, and stores how it ended in the future. *)
Definition worker_run (i : nat) (self : Connector) : Connector :=
  match pool self !! i with
  | Some {| fut_job := j; fut_outcome := None |} =>
      let '(r, self) := job j self in
      set_pool (<[i := {| fut_job := j; fut_outcome := Some r |}]> (pool self))
        self
  | _ => self
  end.

(** [future.result()] blocks until the job has ended; the worker runs in
    the meantime.  What the job raised is raised again. *)
Definition future_result (i : nat) : M Result := λ self,
  let self := worker_run i self in
  match pool self !! i ≫= fut_outcome with
  | Some r => (r, self)
  | None => (Raise (IndexError "no such future"), self)
  end.

Definition _assert_sequential : M () := λ self,
  if _parallel_mode self then (Raise (RuntimeError sequential_msg), self)
  else (Return (), self).

Definition _consolidate_parallel_bookmarks (self : Connector) : Connector :=
  let self :=
    set_bookmarks
      (λ bms, map_fold (λ db pending bms,
                          match pending with
                          | [] => bms
                          | _ => <[db := pending]> bms
                          end)
                       bms (_parallel_bookmarks self))
      self in
  set_parallel_bookmarks (λ _, ∅) self.

Definition _await_futures : M () := λ self,
  (for_each (_futures self) future_result ;;
   modify (set_futures [])) self.

(** [with self.parallelism(): block].  The [finally] clause runs however the
    block ends; an exception raised inside it replaces the block's. *)
Definition parallelism {A} (block : M A) : M A := λ self,
  let self := set_parallel_mode true self in
  let '(r, self) := block self in
  match _await_futures self with
  | (Return _, self) =>
      let self := set_parallel_mode false self in
      let self := _consolidate_parallel_bookmarks self in
      (r, self)
  | (Raise e, self) => (Raise e, self)
  end.

(** [attributes.sort()] *)
Fixpoint sort_insert (x : string) (l : list string) : list string :=
  match l with
  | [] => [x]
  | y :: rest =>
      if String.leb x y then x :: l else y :: sort_insert x rest
  end.
Definition sort (l : list string) : list string := foldr sort_insert [] l.

(** The [attributes] argument of the index methods: a string or an
    iterable of strings. *)
Inductive str_or_iterable :=
  | Str (s : string)
  | Iterable (l : list string).

Definition create_node_index (label : string) (attributes : str_or_iterable)
  : M string :=
  let attributes :=
    match attributes with Str s => [s] | Iterable l => l end in
  match attributes with
  | [] => raise AssertionError
  | _ =>
      let attributes := sort attributes in
      do index_name <-
        lift (str_format "node_index_{}_{}"
                [replace_char "_" "__" label;
                 String.concat "_" (map (replace_char "_" "__") attributes)]
                []);
      do tmpl <-
        lift (format_escaped
                "CREATE INDEX {} IF NOT EXISTS FOR (n:{}) ON ({{}})"
                [index_name; label] []);
      do cypher <-
        lift (str_format tmpl
                [String.concat ", " (map (λ attr, "n." +:+ escape attr)
                                         attributes)]
                []);
      write_query cypher None None ;;
      ret index_name
  end.

Definition create_rel_index (label : string) (attributes : str_or_iterable)
  : M string :=
  let attributes :=
    match attributes with Str s => [s] | Iterable l => l end in
  match attributes with
  | [] => raise AssertionError
  | _ =>
      let attributes := sort attributes in
      do index_name <-
        lift (str_format "rel_index_{}_{}"
                [replace_char "_" "__" label;
                 String.concat "_" (map (replace_char "_" "__") attributes)]
                []);
      do tmpl <-
        lift (format_escaped
                "CREATE INDEX {} IF NOT EXISTS FOR ()-[r:{}]-() ON ({{}})"
                [index_name; label] []);
      do cypher <-
        lift (str_format tmpl
                [String.concat ", " (map (λ attr, "r." +:+ escape attr)
                                         attributes)]
                []);
      write_query cypher None None ;;
      ret index_name
  end.

End connector.

(** * Row sources *)

(** A [pandas.DataFrame]: its column keys and its rows. *)
Record DataFrame := {
  df_keys : list string;
  df_rows : list row;
}.

(** A [numpy.ndarray]: its shape and its rows ([array[i].tolist()]). *)
Record ndarray := {
  shape : list nat;
  array_rows : list row;
}.

(** [str(array.shape)]: a tuple of integers, [()], [(3,)], [(3, 3)]. *)
Definition repr_shape (shape : list nat) : string :=
  match shape with
  | [] => "()"
  | [n] => "(" +:+ str_of_int (Z.of_nat n) +:+ ",)"
  | _ =>
      "(" +:+ String.concat ", " (map (λ n, str_of_int (Z.of_nat n)) shape)
      +:+ ")"
  end.

(** The loop of [range(offset, stop, step)] for a positive [step]; it runs
    at most [fuel] times. *)
Fixpoint range_loop (fuel offset stop step : nat) : list nat :=
  match fuel with
  | O => []
  | S fuel =>
      if (offset <? stop)%nat then offset :: range_loop fuel (offset + step) stop step
      else []
  end.

(** [range(0, stop, step)] *)
Definition range (stop : nat) (step : Z) : Exc (list nat) :=
  if (step =? 0)%Z then Raise (ValueError "range() arg 3 must not be zero")
  else if (step <? 0)%Z then Return []
  else Return (range_loop stop 0 stop (Z.to_nat step)).

(** [rows[lo:hi]] for [0 <= lo <= hi] *)
Definition slice {A} (rows : list A) (lo hi : nat) : list A :=
  take (hi - lo) (drop lo rows).

(** * neo4py/_pandas_support.py and neo4py/_numpy_support.py *)

Section bulk.
Variable drv : Driver.
Import NodeCreationMode.

(** The sequential loop over the batches. *)
Definition sequential_batches (rows : list row) (cypher : string)
    (batch_size : Z) : M () :=
  do offsets <- lift (range (length rows) batch_size);
  for_each offsets (λ offset,
    let rows_list := slice rows offset (offset + Z.to_nat batch_size) in
    write_query drv cypher (Some rows_list) None).

(** The loop over the batches inside [with self.parallelism()]. *)
Definition parallel_batches (rows : list row) (cypher : string)
    (batch_size : Z) : M () :=
  parallelism drv (
    do offsets <- lift (range (length rows) batch_size);
    for_each offsets (λ offset,
      let rows_list := slice rows offset (offset + Z.to_nat batch_size) in
      parallel_write_query cypher (Some rows_list) None)).

Definition _batch_query_df (df : DataFrame) (cypher : string)
    (batch_size : Z) (parallel : bool) : M () :=
  if parallel then parallel_batches (df_rows df) cypher batch_size
  else sequential_batches (df_rows df) cypher batch_size.

(** Truth value of an optional string: [None] and [""] are false. *)
Definition truthy (s : option string) : bool :=
  match s with
  | Some s => negb (String.eqb s "")
  | None => false
  end.

Definition in_list (x : string) (l : list string) : bool :=
  existsb (String.eqb x) l.

Definition nodes_df_warning : string :=
  "Passed label and cypher template to from_nodes_df. creation_mode has no effect.".
Definition nodes_np_warning : string :=
  "Passed label and cypher template to from_nodes_df. Label will be ignored.".
Definition id_needed_msg : string :=
  "id_ is needed when creation mode is either MERGE_ON_ID_IGNORE_ON_MATCH or MERGE_ON_ID_SET_ATTR_ON_MATCH".
Definition shape_msg_template : string :=
  "array must have shape (n, m[, ...]) with m >= 2 and m == len(attributes), but had shape {}".

(** What the interpreter says when [Cypher.nodes_from_rows] is called
    without its last argument (the wording of Python 3.10 and later, which
    names the function by its qualified name). *)
Definition missing_argument_msg : string :=
  "Cypher.nodes_from_rows() missing 1 required positional argument: 'row_attr_map'".

(** [save_nodes_df] up to the point where the batches are dispatched: the
    statement [cypher_] and the flag [can_run_parallel] it has computed.
    The label is a string by its type. *)
Definition save_nodes_df_prepare (df : DataFrame) (label : string)
    (id_ : option string) (creation_mode : option NodeCreationMode.t)
    (df_key_to_attr_map : option (gmap string string))
    (cypher : option string) : M (string * bool) :=
  (* value normalization *)
  let creation_mode := default CREATE creation_mode in
  let df_key_to_attr_map := default ∅ df_key_to_attr_map in
  (* type checks *)
  do creation_mode <-
    match cypher with
    | Some _ => modify (warn nodes_df_warning) ;; ret CREATE
    | None => ret creation_mode
    end;
  (if py_in (NodeMode creation_mode)
        [NodeMode MERGE_ON_ID_IGNORE_ON_MATCH;
         NodeMode MERGE_ON_ID_SET_ATTR_ON_MATCH]
      && bool_decide (id_ = None)
   then raise (ValueError id_needed_msg) else ret ()) ;;
  (* index creation *)
  (if bool_decide (creation_mode = MERGE_ON_ALL_ATTRIBUTES)
   then create_node_index drv label
          (Iterable (map (dict_get df_key_to_attr_map) (df_keys df))) ;; ret ()
   else ret ()) ;;
  (match id_ with
   | Some id_ =>
       if String.eqb id_ "" then ret ()
       else if negb (in_list id_ (df_keys df))
       then raise (KeyError ("Couldn't find id_ field " +:+ id_
                             +:+ " in data frame"))
       else if negb (bool_decide (creation_mode = MERGE_ON_ALL_ATTRIBUTES))
       then create_node_index drv label
              (Str (dict_get df_key_to_attr_map id_)) ;; ret ()
       else ret ()
   | None => ret ()
   end) ;;
  (* query generation *)
  do cypher_ <-
    match cypher with
    | None => lift (Cypher.nodes_from_rows (df_keys df) id_ [label]
                      creation_mode df_key_to_attr_map)
    | Some cypher => ret cypher
    end;
  (* query execution *)
  let can_run_parallel :=
    py_in (NodeMode creation_mode)
      [NodeMode CREATE; NodeMode MERGE_ON_ID_IGNORE_ON_MATCH]
    && bool_decide (cypher = None) in
  ret (cypher_, can_run_parallel).

Definition save_nodes_df (df : DataFrame) (label : string)
    (id_ : option string) (batch_size : Z)
    (creation_mode : option NodeCreationMode.t)
    (df_key_to_attr_map : option (gmap string string))
    (cypher : option string) : M () :=
  do '(cypher_, can_run_parallel) <-
    save_nodes_df_prepare df label id_ creation_mode df_key_to_attr_map cypher;
  _batch_query_df df cypher_ batch_size can_run_parallel.

(** [save_nodes_np] up to the point where the batches are dispatched: the
    statement [cypher_] and whether the branch inside
    [with self.parallelism()] is the one taken.  The label is a string and
    the attributes are a list of strings by their types. *)
Definition save_nodes_np_prepare (array : ndarray) (attributes : list string)
    (label : string) (id_ : option string)
    (creation_mode : option NodeCreationMode.t) (cypher : option string)
  : M (string * bool) :=
  (* value normalization *)
  let creation_mode := default CREATE creation_mode in
  (* type checks *)
  (if (length (shape array) <? 2)%nat
      || negb (bool_decide (shape array !! 1 = Some (length attributes)))
   then do msg <- lift (str_format shape_msg_template
                          [repr_shape (shape array)] []);
        raise (ValueError msg)
   else ret ()) ;;
  (if py_in (NodeMode creation_mode)
        [NodeMode MERGE_ON_ID_IGNORE_ON_MATCH;
         NodeMode MERGE_ON_ID_SET_ATTR_ON_MATCH]
      && bool_decide (id_ = None)
   then raise (ValueError id_needed_msg) else ret ()) ;;
  (* index creation *)
  (if bool_decide (creation_mode = MERGE_ON_ALL_ATTRIBUTES)
   then create_node_index drv label (Iterable attributes) ;; ret ()
   else ret ()) ;;
  (match id_ with
   | Some id_ =>
       if String.eqb id_ "" then ret ()
       else if negb (in_list id_ attributes)
       then raise (ValueError "id_ must be in attributes")
       else if negb (bool_decide (creation_mode = MERGE_ON_ALL_ATTRIBUTES))
       then create_node_index drv label (Str id_) ;; ret ()
       else ret ()
   | None => ret ()
   end) ;;
  (* an enumeration member is true, so [creation_mode or attributes] is *)
  (if truthy cypher then modify (warn nodes_np_warning) else ret ()) ;;
  (* query generation: the call passes four of the five arguments of
     [Cypher.nodes_from_rows] *)
  do cypher_ <-
    match cypher with
    | None => raise (TypeError missing_argument_msg)
    | Some cypher => ret cypher
    end;
  (* query execution *)
  ret (cypher_,
       py_in (NodeMode creation_mode)
         [NodeMode CREATE; NodeMode MERGE_ON_ID_IGNORE_ON_MATCH]).

Definition save_nodes_np (array : ndarray) (attributes : list string)
    (label : string) (id_ : option string) (batch_size : Z)
    (creation_mode : option NodeCreationMode.t) (cypher : option string)
  : M () :=
  do '(cypher_, parallel) <-
    save_nodes_np_prepare array attributes label id_ creation_mode cypher;
  if parallel then parallel_batches (array_rows array) cypher_ batch_size
  else sequential_batches (array_rows array) cypher_ batch_size.

(** The flag [can_run_parallel] of [save_rel_df].  Both tuples name
    [RelCreationMode.CREATE], a member of the enumeration of edge modes,
    next to [RelNodeCreationMode.MATCH]. *)
Definition rel_can_run_parallel (creation_mode : RelCreationMode.t)
    (src_creation_mode dst_creation_mode : RelNodeCreationMode.t) : bool :=
  bool_decide (creation_mode = RelCreationMode.CREATE)
  && py_in (RelNodeMode src_creation_mode)
       [RelNodeMode RelNodeCreationMode.MATCH; RelMode RelCreationMode.CREATE]
  && py_in (RelNodeMode dst_creation_mode)
       [RelNodeMode RelNodeCreationMode.MATCH; RelMode RelCreationMode.CREATE].

(** [save_rel_df] up to the point where the batches are dispatched.  The
    endpoint labels and ids are strings by their types; [label] defaults
    to [None]. *)
Definition save_rel_df_prepare (df : DataFrame)
    (src_label src_id dst_label dst_id : string) (label : option string)
    (src_attributes dst_attributes : option (list string))
    (src_creation_mode dst_creation_mode : option RelNodeCreationMode.t)
    (creation_mode : option RelCreationMode.t)
    (df_key_to_attr_map : option (gmap string string))
    (cypher : option string) : M (string * bool) :=
  (* value normalization *)
  let creation_mode := default RelCreationMode.CREATE creation_mode in
  let src_creation_mode :=
    default RelNodeCreationMode.MERGE src_creation_mode in
  let dst_creation_mode :=
    default RelNodeCreationMode.MERGE dst_creation_mode in
  let src_attributes := default [] src_attributes in
  let dst_attributes := default [] dst_attributes in
  let df_key_to_attr_map := default ∅ df_key_to_attr_map in
  let non_rel_attributes :=
    src_id :: dst_id :: src_attributes ++ dst_attributes in
  let rel_attributes :=
    filter (λ a, in_list a non_rel_attributes = false) (df_keys df) in
  (* type checks *)
  match label with
  | None => raise (TypeError "label must be a string, not <class 'NoneType'>")
  | Some label =>
      if negb (in_list src_id (df_keys df)) then
        raise (KeyError ("Couldn't find src_id field " +:+ src_id
                         +:+ " in data frame"))
      else if negb (in_list dst_id (df_keys df)) then
        raise (KeyError ("Couldn't find dst_id field " +:+ dst_id
                         +:+ " in data frame"))
      else
        let src_attributes := src_id :: src_attributes in
        let dst_attributes := dst_id :: dst_attributes in
        (* index creation *)
        create_node_index drv src_label
          (Iterable (map (dict_get df_key_to_attr_map) src_attributes)) ;;
        create_node_index drv dst_label
          (Iterable (map (dict_get df_key_to_attr_map) dst_attributes)) ;;
        create_rel_index drv label
          (Iterable (map (dict_get df_key_to_attr_map) rel_attributes)) ;;
        (* query generation *)
        do cypher_ <-
          match cypher with
          | None =>
              lift (Cypher.rels_from_rows
                      src_attributes dst_attributes rel_attributes (df_keys df)
                      [src_label] [dst_label] [label]
                      src_creation_mode dst_creation_mode creation_mode
                      df_key_to_attr_map)
          | Some cypher => ret cypher
          end;
        (* query execution *)
        ret (cypher_,
             rel_can_run_parallel creation_mode
               src_creation_mode dst_creation_mode)
  end.

Definition save_rel_df (df : DataFrame)
    (src_label src_id dst_label dst_id : string) (label : option string)
    (batch_size : Z) (src_attributes dst_attributes : option (list string))
    (src_creation_mode dst_creation_mode : option RelNodeCreationMode.t)
    (creation_mode : option RelCreationMode.t)
    (df_key_to_attr_map : option (gmap string string))
    (cypher : option string) : M () :=
  do '(cypher_, can_run_parallel) <-
    save_rel_df_prepare df src_label src_id dst_label dst_id label
      src_attributes dst_attributes src_creation_mode dst_creation_mode
      creation_mode df_key_to_attr_map cypher;
  _batch_query_df df cypher_ batch_size can_run_parallel.

End bulk.

(** * What the specification compares the code with *)

(** ** Undoing [escape]

    The specification speaks of unescaping the output of [escape]: the
    enclosing backticks are removed and every doubled backtick inside
    becomes one.  A backtick that is not doubled is an error. *)

Fixpoint undouble (s : string) : option string :=
  match s with
  | EmptyString => Some EmptyString
  | String c rest =>
      if Ascii.eqb c backtick then
        match rest with
        | String c' rest' =>
            if Ascii.eqb c' backtick then String backtick <$> undouble rest'
            else None
        | EmptyString => None
        end
      else String c <$> undouble rest
  end.

Fixpoint strip_closing (s : string) : option string :=
  match s with
  | EmptyString => None
  | String c rest =>
      match rest with
      | EmptyString => if Ascii.eqb c backtick then Some EmptyString else None
      | _ => String c <$> strip_closing rest
      end
  end.

(** What stands between the enclosing backticks. *)
Definition interior (s : string) : option string :=
  match s with
  | String c rest => if Ascii.eqb c backtick then strip_closing rest else None
  | EmptyString => None
  end.

Definition unescape (s : string) : option string := interior s ≫= undouble.

(** Every backtick is followed by a second one, which is skipped. *)
Fixpoint backticks_doubled (s : string) : bool :=
  match s with
  | EmptyString => true
  | String c rest =>
      if Ascii.eqb c backtick then
        match rest with
        | String c' rest' => Ascii.eqb c' backtick && backticks_doubled rest'
        | EmptyString => false
        end
      else backticks_doubled rest
  end.

(** ** The branching table of the statement builder *)

Import NodeCreationMode.

(** [key: row[i]], as [row_as_dict] renders it. *)
Definition index_pair (ik : Z * string) : string :=
  escape ik.2 +:+ ": `row`[" +:+ str_of_int ik.1 +:+ "]".

Definition with_clause (attributes : list string) : string :=
  "WITH {"
  +:+ String.concat ", " (map index_pair (Cypher.enumerate attributes))
  +:+ "} AS `row`".

(** [attr: row["key"]], as [inline_attributes] renders it. *)
Definition attr_pair (row_attr_map : gmap string string) (key : string)
  : string :=
  escape (dict_get row_attr_map key) +:+ ": `row`[" +:+ escaped_str key +:+ "]".

Definition match_clause (match_keys : list string)
    (row_attr_map : gmap string string) : string :=
  match match_keys with
  | [] => ""
  | _ =>
      " {" +:+ String.concat ", " (map (attr_pair row_attr_map) match_keys)
      +:+ "}"
  end.

Definition label_list (labels : list string) : string :=
  String.concat "" (map (λ l, ":" +:+ escape l) labels).

Definition table_verb (m : NodeCreationMode.t) : string :=
  match m with CREATE => "CREATE" | _ => "MERGE" end.

Definition table_match (m : NodeCreationMode.t) (id_ : string)
    (attributes : list string) (row_attr_map : gmap string string) : string :=
  match m with
  | CREATE => ""
  | MERGE_ON_ID_IGNORE_ON_MATCH | MERGE_ON_ID_SET_ATTR_ON_MATCH =>
      match_clause [id_] row_attr_map
  | MERGE_ON_ALL_ATTRIBUTES => match_clause attributes row_attr_map
  end.

Definition table_set (m : NodeCreationMode.t) : string :=
  match m with
  | CREATE => "SET n = row"
  | MERGE_ON_ID_IGNORE_ON_MATCH => "ON CREATE" +:+ nl +:+ "  SET n = row"
  | MERGE_ON_ID_SET_ATTR_ON_MATCH => "SET n = row"
  | MERGE_ON_ALL_ATTRIBUTES => ""
  end.

Definition table_statement (m : NodeCreationMode.t) (id_ : string)
    (attributes labels : list string) (row_attr_map : gmap string string)
  : string :=
  "UNWIND $rows AS row" +:+ nl
  +:+ with_clause attributes +:+ nl
  +:+ table_verb m +:+ " (n" +:+ label_list labels
  +:+ table_match m id_ attributes row_attr_map +:+ ")" +:+ nl
  +:+ table_set m.

(** The statement the specification quotes for attributes [x], [y] and
    label [P], and the one the builder renders. *)
Definition quoted_create_statement : string :=
  "UNWIND $rows AS row" +:+ nl
  +:+ "WITH {x: row[0], y: row[1]} AS row" +:+ nl
  +:+ "CREATE (n:`P`)" +:+ nl
  +:+ "SET n = row".

Definition rendered_create_statement : string :=
  "UNWIND $rows AS row" +:+ nl
  +:+ "WITH {`x`: `row`[0], `y`: `row`[1]} AS `row`" +:+ nl
  +:+ "CREATE (n:`P`)" +:+ nl
  +:+ "SET n = row".

(** A string without braces: [str.format] copies it. *)
Fixpoint no_brace (s : string) : bool :=
  match s with
  | EmptyString => true
  | String c rest =>
      negb (Ascii.eqb c "{") && negb (Ascii.eqb c "}") && no_brace rest
  end.

(** ** Sequences of sequential sessions *)

Record Query := {
  q_access : access;
  q_cypher : string;
  q_params : option (list row);
}.

Definition query_of (drv : Driver) (a : access)
  : string → option (list row) → db_name → M Result :=
  match a with READ => read_query drv | WRITE => write_query drv end.

(** A client that runs the queries [qs] against [db], one after the other. *)
Definition run_queries (drv : Driver) (db : db_name) (qs : list Query) : M () :=
  for_each qs (λ q, query_of drv (q_access q) (q_cypher q) (q_params q) db).

(** What the driver sees of one sequential session that closes cleanly. *)
Definition session_block (db : db_name) (seed : list token) (q : Query)
    (bm : token) : list event :=
  [SessionOpen db seed; TxRun (q_access q) (q_cypher q) (q_params q);
   LastBookmark bm; SessionClose].

(** Sessions in a row, the first seeded with [seed] and every later one
    with the bookmark of the session before it. *)
Fixpoint chained_trace (db : db_name) (seed : list token) (qs : list Query)
    (toks : list token) : list event :=
  match qs, toks with
  | q :: qs, t :: toks =>
      session_block db seed q t ++ chained_trace db [t] qs toks
  | _, _ => []
  end.

(** The tokens the sessions of such a run close with: each is what the
    driver answers to [last_bookmark] at the close of its session, that is
    on the log up to the transaction of that session. *)
Fixpoint closing_tokens (drv : Driver) (db : db_name) (log : list event)
    (seed : list token) (qs : list Query) : list token :=
  match qs with
  | [] => []
  | q :: qs =>
      let t :=
        last_bookmark drv
          (log ++ [SessionOpen db seed;
                   TxRun (q_access q) (q_cypher q) (q_params q)]) in
      t :: closing_tokens drv db (log ++ session_block db seed q t) [t] qs
  end.

(** The driver log up to the transaction of a sequential query. *)
Definition request (self : Connector) (db : db_name) (a : access)
    (cypher : string) (params : option (list row)) : list event :=
  driver_log self
  ++ [SessionOpen db (current_bookmarks self db); TxRun a cypher params].

(** ** Batches *)

(** The ceiling of [n / b]. *)
Definition ceil_div (n b : nat) : nat := (n + b - 1) / b.

Definition batches_of {A} (rows : list A) (b : nat) (offsets : list nat)
  : list (list A) :=
  map (λ offset, slice rows offset (offset + b)) offsets.

Definition write_of (cypher : string) (rows_list : list row) : Query :=
  {| q_access := WRITE; q_cypher := cypher; q_params := Some rows_list |}.

(** ** Drivers and row sources to run the connector on *)

Definition no_rows : Result := {| keys := []; records := [] |}.

(** A database that commits every transaction. *)
Definition drv_ok : Driver :=
  {| run_tx := λ _, Return no_rows;
     last_bookmark := λ log, "bm" +:+ str_of_int (Z.of_nat (length log)) |}.

(** A database that rejects the statement [FAIL] and commits every other. *)
Definition drv_fail : Driver :=
  {| run_tx := λ log,
       match last log with
       | Some (TxRun _ cypher _) =>
           if String.eqb cypher "FAIL" then Raise (DriverError "rejected")
           else Return no_rows
       | _ => Return no_rows
       end;
     last_bookmark := λ log, "bm" +:+ str_of_int (Z.of_nat (length log)) |}.

Definition df3 : DataFrame :=
  {| df_keys := ["a"; "b"; "w"];
     df_rows := [[PyInt 1; PyInt 2; PyInt 3];
                 [PyInt 4; PyInt 5; PyInt 6];
                 [PyInt 7; PyInt 8; PyInt 9]] |}.

Definition array3 : ndarray :=
  {| shape := [3; 3]; array_rows := df_rows df3 |}.

(** Two writes against the database [neo4j]. *)
Definition two_writes : list Query :=
  [{| q_access := WRITE; q_cypher := "CREATE (a)"; q_params := None |};
   {| q_access := WRITE; q_cypher := "CREATE (b)"; q_params := None |}].

(** The statement [save_nodes_df] builds for [df3], label [P] and Create. *)
Definition rendered_nodes_statement : string :=
  "UNWIND $rows AS row" +:+ nl
  +:+ "WITH {`a`: `row`[0], `b`: `row`[1], `w`: `row`[2]} AS `row`" +:+ nl
  +:+ "CREATE (n:`P`)" +:+ nl
  +:+ "SET n = row".

(** A connector inside a parallelism scope. *)
Definition parallel_connector : Connector := set_parallel_mode true new_connector.

(** Three parallel writes, the second of which the database rejects; the
    worker of the first has finished before the scope is left. *)
Definition three_writes : M () :=
  parallel_write_query "A" None None ;;
  parallel_write_query "FAIL" None None ;;
  parallel_write_query "C" None None ;;
  modify (worker_run drv_fail 0).

(** * Loading ([load_nodes_df], [load_rel_df], [load_nodes_np]) *)

Definition load_warning : string :=
  "Passed label and cypher template to to_nodes_df. Label will be ignored.".

Section loading.
Variable drv : Driver.

(** [load_nodes_df] up to the conversion of the result by [to_nodes_df]:
    the warning and the query. *)
Definition load_nodes_df_query (label : string) (cypher : option string)
  : M Result :=
  (if negb (String.eqb label "") && truthy cypher
   then modify (warn load_warning) else ret ()) ;;
  do query <- lift (format_escaped "MATCH (n:{}) RETURN n" [label] []);
  read_query drv query None None.

(** [load_rel_df] up to the conversion of the result by [to_rel_df]. *)
Definition load_rel_df_query (label : string) (cypher : option string)
  : M Result :=
  (if negb (String.eqb label "") && truthy cypher
   then modify (warn load_warning) else ret ()) ;;
  do query <- lift (format_escaped "MATCH ()-[r:{}]->() RETURN r" [label] []);
  read_query drv query None None.

(** [load_nodes_np] up to the conversion of the result by [to_nodes_np]. *)
Definition load_nodes_np_query (label : string) (cypher : option string)
  : M Result :=
  (if negb (String.eqb label "") && truthy cypher
   then modify (warn load_warning) else ret ()) ;;
  do query <- lift (format_escaped "MATCH (n:{}) RETURN n" [label] []);
  read_query drv query None None.

End loading.

(** * What the further properties are stated with *)

(** ** Reading a string literal

    The reader of a double-quoted literal: a backslash makes the character
    after it an ordinary one, and the first quote that no backslash
    precedes ends the literal.  It returns the value and what follows. *)
Fixpoint read_literal_body (s : string) : option (string * string) :=
  match s with
  | EmptyString => None
  | String c rest =>
      if Ascii.eqb c dquote then Some (EmptyString, rest)
      else if Ascii.eqb c backslash then
        match rest with
        | String c' rest' =>
            match read_literal_body rest' with
            | Some (v, r) => Some (String c' v, r)
            | None => None
            end
        | EmptyString => None
        end
      else
        match read_literal_body rest with
        | Some (v, r) => Some (String c v, r)
        | None => None
        end
  end.

Definition read_string_literal (s : string) : option (string * string) :=
  match s with
  | String c rest => if Ascii.eqb c dquote then read_literal_body rest else None
  | EmptyString => None
  end.

(** ** The statement for edges *)

Definition endpoint_verb (m : RelNodeCreationMode.t) : string :=
  match m with
  | RelNodeCreationMode.MERGE => "MERGE"
  | RelNodeCreationMode.MATCH => "MATCH"
  | RelNodeCreationMode.CREATE => "CREATE"
  end.

Definition rel_verb (m : RelCreationMode.t) : string :=
  match m with
  | RelCreationMode.CREATE => "CREATE"
  | RelCreationMode.MERGE => "MERGE"
  end.

(** The attributes of the edge pattern: a space, then the map if there is
    an attribute. *)
Definition rel_match_clause (rel_attributes : list string)
    (row_attr_map : gmap string string) : string :=
  match rel_attributes with
  | [] => " "
  | _ => match_clause rel_attributes row_attr_map
  end.

Definition edge_statement
    (src_attributes dst_attributes rel_attributes all_attributes : list string)
    (src_labels dst_labels rel_labels : list string)
    (src_creation_mode dst_creation_mode : RelNodeCreationMode.t)
    (rel_creation_mode : RelCreationMode.t)
    (row_attr_map : gmap string string) : string :=
  "UNWIND $rows AS row" +:+ nl
  +:+ with_clause all_attributes +:+ nl
  +:+ endpoint_verb src_creation_mode +:+ " (src" +:+ label_list src_labels
  +:+ match_clause src_attributes row_attr_map +:+ ")" +:+ nl
  +:+ endpoint_verb dst_creation_mode +:+ " (dst" +:+ label_list dst_labels
  +:+ match_clause dst_attributes row_attr_map +:+ ")" +:+ nl
  +:+ rel_verb rel_creation_mode +:+ " (src)-[r" +:+ label_list rel_labels
  +:+ rel_match_clause rel_attributes row_attr_map +:+ "]->(dst)".

(** ** The WITH map for any row name and any indexes *)

Definition index_pair_in (in_name : string) (ik : Z * string) : string :=
  escape ik.2 +:+ ": " +:+ escape in_name +:+ "[" +:+ str_of_int ik.1 +:+ "]".

Definition attr_idx_iter (attributes : list string)
    (attribute_indexes : option (list Z)) : list (Z * string) :=
  match attribute_indexes with
  | Some (i :: idx) => Cypher.zip (i :: idx) attributes
  | _ => Cypher.enumerate attributes
  end.

(** ** Index names and statements *)

Definition double_underscores (s : string) : string :=
  replace_char "_" "__" s.

Definition node_index_name (label : string) (attributes : list string)
  : string :=
  "node_index_" +:+ double_underscores label +:+ "_"
  +:+ String.concat "_" (map double_underscores (sort attributes)).

Definition node_index_statement (label : string) (attributes : list string)
  : string :=
  "CREATE INDEX " +:+ escape (node_index_name label attributes)
  +:+ " IF NOT EXISTS FOR (n:" +:+ escape label +:+ ") ON ("
  +:+ String.concat ", " (map (λ attr, "n." +:+ escape attr) (sort attributes))
  +:+ ")".

(** The write that asks for the index. *)
Definition index_query (label : string) (attributes : list string) : Query :=
  {| q_access := WRITE; q_cypher := node_index_statement label attributes;
     q_params := None |}.

Definition rel_index_name (label : string) (attributes : list string)
  : string :=
  "rel_index_" +:+ double_underscores label +:+ "_"
  +:+ String.concat "_" (map double_underscores (sort attributes)).

Definition rel_index_statement (label : string) (attributes : list string)
  : string :=
  "CREATE INDEX " +:+ escape (rel_index_name label attributes)
  +:+ " IF NOT EXISTS FOR ()-[r:" +:+ escape label +:+ "]-() ON ("
  +:+ String.concat ", " (map (λ attr, "r." +:+ escape attr) (sort attributes))
  +:+ ")".

Definition string_le (s1 s2 : string) : Prop := String.leb s1 s2 = true.

(** ** Parallel sessions in a row *)

Definition undone (j : Job) : Future :=
  {| fut_job := j; fut_outcome := None |}.

Definition job_query (j : Job) : Query :=
  {| q_access := job_access j; q_cypher := job_cypher j;
     q_params := job_params j |}.

Definition write_job (cypher : string) (rows_list : list row) : Job :=
  {| job_access := WRITE; job_cypher := cypher;
     job_params := Some rows_list; job_database := None |}.

(** Sessions that are all seeded with the same bookmarks. *)
Fixpoint parallel_trace (db : db_name) (seed : list token) (qs : list Query)
    (toks : list token) : list event :=
  match qs, toks with
  | q :: qs, t :: toks =>
      session_block db seed q t ++ parallel_trace db seed qs toks
  | _, _ => []
  end.

(** ** A parallelism scope under any schedule of the workers *)

(** The workers of the pool run the jobs of the futures [order], one after
    the other; a future that has run, or that does not exist, is skipped. *)
Definition run_workers (drv : Driver) (order : list nat) (self : Connector)
  : Connector :=
  foldl (λ st i, worker_run drv i st) self order.

(** The block of [with self.parallelism()] in [_batch_query_df]. *)
Definition parallel_block (rows : list row) (cypher : string)
    (batch_size : Z) : M () :=
  do offsets <- lift (range (length rows) batch_size);
  for_each offsets (λ offset,
    let rows_list := slice rows offset (offset + Z.to_nat batch_size) in
    parallel_write_query cypher (Some rows_list) None).

(** The connector after the jobs [jobs] have been submitted. *)
Definition submitted (jobs : list Job) (self : Connector) : Connector :=
  set_futures (_futures self ++ seq (length (pool self)) (length jobs))
    (set_pool (pool self ++ map undone jobs) self).

Definition finished (f : Future) : bool :=
  match fut_outcome f with Some _ => true | None => false end.

Definition finished_queries (fs : list Future) : list Query :=
  map (λ f, job_query (fut_job f)) (filter (λ f, finished f = true) fs).

(** A future of the scope has not run or has returned. *)
Definition outcome_ok (f : Future) : Prop :=
  fut_outcome f = None ∨ ∃ res, fut_outcome f = Some (Return res).

(** What holds of the connector [st] while the workers run the jobs
    [jobs], submitted in the state [base] behind the futures [pre]: the
    sessions so far were all opened with the bookmarks of [base], and the
    tokens they closed with are the pending tokens. *)
Record scope_inv (base : Connector) (pre : list Future) (jobs : list Job)
    (st : Connector) : Prop := {
  inv_mode : _parallel_mode st = true;
  inv_futures : _futures st = _futures base;
  inv_warnings : warnings st = warnings base;
  inv_bookmarks : ∀ d, current_bookmarks st d = current_bookmarks base d;
  inv_pending : ∀ d, d ≠ None →
    _parallel_bookmarks st !! d = _parallel_bookmarks base !! d;
  inv_pool : ∃ fs qs toks,
    pool st = pre ++ fs
    ∧ map fut_job fs = jobs
    ∧ Forall outcome_ok fs
    ∧ length qs = length toks
    ∧ driver_log st
      = driver_log base
        ++ parallel_trace None (current_bookmarks base None) qs toks
    ∧ qs ≡ₚ finished_queries fs
    ∧ default [] (_parallel_bookmarks st !! None)
      = default [] (_parallel_bookmarks base !! None) ++ toks;
}.

Definition finished_at (st : Connector) (i : nat) : Prop :=
  ∃ f, pool st !! i = Some f ∧ finished f = true.

Definition zero_step_msg : string := "range() arg 3 must not be zero".

(** A frame whose only columns are the two endpoint ids, and a connector
    that holds pending tokens. *)
Definition df_ids : DataFrame :=
  {| df_keys := ["a"; "b"]; df_rows := [[PyInt 1; PyInt 2]] |}.

Definition pending_connector : Connector :=
  set_parallel_bookmarks (λ _, {[ Some "neo4j" := ["t1"; "t2"] ]})
    (set_bookmarks (λ _, {[ Some "neo4j" := ["old"]; None := ["keep"] ]})
       new_connector).

(** * Examples of the docstrings *)

Example row_as_dict_doc1 :
  Cypher.row_as_dict ["foo"; "bar"] "row" "row" None
  = Return "{`foo`: `row`[0], `bar`: `row`[1]} AS `row`".
Proof. reflexivity. Qed.

Example row_as_dict_doc2 :
  Cypher.row_as_dict ["foo"] "in_row" "out_row" None
  = Return "{`foo`: `in_row`[0]} AS `out_row`".
Proof. reflexivity. Qed.

Example row_as_dict_doc3 :
  Cypher.row_as_dict ["foo"; "bar"] "row" "row" (Some [42; 69]%Z)
  = Return "{`foo`: `row`[42], `bar`: `row`[69]} AS `row`".
Proof. reflexivity. Qed.

(** * Strings *)

Lemma append_cons c s t : String c s +:+ t = String c (s +:+ t).
Proof. reflexivity. Qed.

Lemma append_nil t : "" +:+ t = t.
Proof. reflexivity. Qed.

Lemma append_nil_r s : s +:+ "" = s.
Proof. induction s as [|c s IH]; [done|]. by rewrite append_cons, IH. Qed.

Lemma append_assoc s t u : (s +:+ t) +:+ u = s +:+ t +:+ u.
Proof. induction s as [|c s IH]; [done|]. by rewrite !append_cons, IH. Qed.

Ltac norm_append :=
  unfold nl; repeat (rewrite ?append_assoc, ?append_cons, ?append_nil).

(** * Identifier escaping *)

Lemma undouble_replace s : undouble (replace_char backtick "``" s) = Some s.
Proof.
  induction s as [|c s IH]; [done|].
  cbn [replace_char]. destruct (Ascii.eqb_spec c backtick) as [->|Hne].
  - rewrite !append_cons, append_nil. cbn [undouble].
    change (Ascii.eqb "`" backtick) with true. cbn match. by rewrite IH.
  - cbn [undouble]. destruct (Ascii.eqb_spec c backtick); [done|].
    by rewrite IH.
Qed.

Lemma doubled_replace s :
  backticks_doubled (replace_char backtick "``" s) = true.
Proof.
  induction s as [|c s IH]; [done|].
  cbn [replace_char]. destruct (Ascii.eqb_spec c backtick) as [->|Hne].
  - rewrite !append_cons, append_nil. cbn [backticks_doubled].
    change (Ascii.eqb "`" backtick) with true. by cbn match.
  - cbn [backticks_doubled]. by destruct (Ascii.eqb_spec c backtick).
Qed.

Lemma strip_closing_app s : strip_closing (s +:+ "`") = Some s.
Proof.
  induction s as [|c s IH]; [done|].
  rewrite append_cons. cbn [strip_closing]. rewrite IH.
  by destruct s.
Qed.

Lemma interior_escape s :
  interior (escape s) = Some (replace_char backtick "``" s).
Proof.
  unfold escape, interior. rewrite append_cons, append_nil.
  change (Ascii.eqb "`" backtick) with true. cbn match.
  apply strip_closing_app.
Qed.

Lemma unescape_escape s : unescape (escape s) = Some s.
Proof.
  unfold unescape. rewrite interior_escape. apply undouble_replace.
Qed.

(** C8. For every string [s], what [escape s] holds between its enclosing
    backticks has every backtick doubled, so none is left unescaped;
    removing the enclosing backticks and undoubling the others gives [s]
    back; and [escape] is injective. *)
Theorem escape_roundtrip (s : string) :
  (∃ inner, interior (escape s) = Some inner
            ∧ backticks_doubled inner = true)
  ∧ unescape (escape s) = Some s
  ∧ (∀ s', escape s = escape s' ↔ s = s').
Proof.
  split; [|split].
  - exists (replace_char backtick "``" s).
    split; [apply interior_escape | apply doubled_replace].
  - apply unescape_escape.
  - intros s'. split; [|by intros ->].
    intros Heq. apply (f_equal unescape) in Heq.
    rewrite !unescape_escape in Heq. by injection Heq.
Qed.

(** * Statement builder *)

Lemma no_brace_app s t : no_brace (s +:+ t) = no_brace s && no_brace t.
Proof.
  induction s as [|c s IH]; [done|].
  rewrite append_cons. cbn [no_brace]. rewrite IH. by rewrite andb_assoc.
Qed.

Lemma format_scan_no_brace s args kwargs :
  no_brace s = true → format_scan FmtText s args kwargs = Return s.
Proof.
  induction s as [|c s IH]; [done|].
  cbn [no_brace format_scan]. intros H.
  destruct (Ascii.eqb c "{"); [done|]. destruct (Ascii.eqb c "}"); [done|].
  by rewrite IH.
Qed.

Lemma no_brace_uint d : no_brace (NilEmpty.string_of_uint d) = true.
Proof. induction d; done. Qed.

Lemma no_brace_str_of_int i : no_brace (str_of_int i) = true.
Proof.
  unfold str_of_int. destruct (Z.to_int i); cbn [NilEmpty.string_of_int].
  - apply no_brace_uint.
  - cbn [no_brace]. apply no_brace_uint.
Qed.

Lemma kw_lookup_head name v kwargs :
  kw_lookup name ((name, v) :: kwargs) = Some v.
Proof. cbn [kw_lookup]. by rewrite String.eqb_refl. Qed.

(** Inside a field whose name has been read up to [acc]. *)
Lemma scan_field name : ∀ acc rest args kwargs,
  no_brace name = true →
  format_scan (FmtField acc) (name +:+ String "}" rest) args kwargs
  = match kw_lookup (acc +:+ name) kwargs with
    | Some v => String.append v <$> format_scan FmtText rest args kwargs
    | None => Raise (KeyError (acc +:+ name))
    end.
Proof.
  induction name as [|c name IH]; intros acc rest args kwargs Hnb.
  - rewrite append_nil, append_nil_r. cbn [format_scan].
    by rewrite Ascii.eqb_refl.
  - rewrite append_cons. cbn [format_scan]. cbn [no_brace] in Hnb.
    destruct (Ascii.eqb c "}"); [by rewrite andb_false_r in Hnb|].
    rewrite IH, append_assoc; [done|].
    by apply andb_true_iff in Hnb as [_ ?].
Qed.

Lemma scan_keyword c name rest args kwargs :
  no_brace (String c name) = true →
  format_scan FmtText (String "{" (String c name +:+ String "}" rest))
    args kwargs
  = match kw_lookup (String c name) kwargs with
    | Some v => String.append v <$> format_scan FmtText rest args kwargs
    | None => Raise (KeyError (String c name))
    end.
Proof.
  intros Hnb. cbn [format_scan]. rewrite Ascii.eqb_refl.
  rewrite append_cons. cbn [format_scan]. cbn [no_brace] in Hnb.
  destruct (Ascii.eqb c "{"); [done|]. destruct (Ascii.eqb c "}"); [done|].
  by rewrite scan_field.
Qed.

Lemma format_index_pair i key :
  format_escaped ("{key}: " +:+ escape "row" +:+ "[" +:+ str_of_int i +:+ "]")
    [] [("key", key)] = Return (index_pair (i, key)).
Proof.
  unfold format_escaped, str_format, index_pair. cbn [map fst snd].
  change ("{key}: " +:+ escape "row" +:+ "[" +:+ str_of_int i +:+ "]")
    with (String "{"
            ("key" +:+ String "}" (": `row`[" +:+ str_of_int i +:+ "]"))).
  rewrite scan_keyword, kw_lookup_head by done.
  rewrite format_scan_no_brace; [done|].
  by rewrite !no_brace_app, no_brace_str_of_int.
Qed.

Lemma all_ok_map {A B} (f : A → Exc B) (g : A → B) l :
  (∀ a, f a = Return (g a)) → all_ok (map f l) = Return (map g l).
Proof.
  intros Hf. induction l as [|a l IH]; [done|].
  cbn [map all_ok]. by rewrite Hf, IH.
Qed.

Lemma row_as_dict_row attributes :
  Cypher.row_as_dict attributes "row" "row" None
  = Return ("{" +:+ String.concat ", "
                      (map index_pair (Cypher.enumerate attributes))
            +:+ "} AS `row`").
Proof.
  unfold Cypher.row_as_dict.
  rewrite (all_ok_map _ index_pair); [done|].
  intros [i key]. apply format_index_pair.
Qed.

Lemma node_pattern_match labels match_keys row_attr_map :
  Cypher.node_pattern (Some labels)
    (Cypher.inline_attributes match_keys (Some row_attr_map) "row") "n"
  = "(n" +:+ label_list labels +:+ match_clause match_keys row_attr_map
    +:+ ")".
Proof. by destruct match_keys. Qed.

Lemma nodes_from_rows_table attributes id_ labels m row_attr_map :
  Cypher.nodes_from_rows attributes (Some id_) labels m row_attr_map
  = Return (table_statement m id_ attributes labels row_attr_map).
Proof.
  unfold Cypher.nodes_from_rows, table_statement, with_clause.
  rewrite row_as_dict_row.
  destruct m; cbn [Cypher.inline_id table_verb table_match table_set];
    unfold mbind, mret, Exc_bind, Exc_ret;
    rewrite ?node_pattern_match; f_equal.
  - change (Cypher.node_pattern (Some labels) "" "n")
      with (Cypher.node_pattern (Some labels)
              (Cypher.inline_attributes [] (Some row_attr_map) "row") "n").
    rewrite node_pattern_match. by norm_append.
  - by norm_append.
  - by norm_append.
  - by norm_append.
Qed.

Lemma nodes_from_rows_no_id attributes id_ labels m row_attr_map :
  m = CREATE ∨ m = MERGE_ON_ALL_ATTRIBUTES →
  Cypher.nodes_from_rows attributes id_ labels m row_attr_map
  = Cypher.nodes_from_rows attributes (Some "") labels m row_attr_map.
Proof. by intros [-> | ->]. Qed.

(** C2, as the specification states it: the statement for attributes [x]
    and [y], label [P] and mode Create is not the quoted one, whose keys
    and row variable are bare. *)
Lemma nodes_from_rows_quoted_differs :
  Cypher.nodes_from_rows ["x"; "y"] None ["P"] CREATE ∅
  ≠ Return quoted_create_statement.
Proof. vm_compute. discriminate. Qed.

(** C2, amended.  For every attribute list, label list, primary key and
    rename map the statement is the one of the branching table, with every
    key, label and the row variable of the WITH clause escaped: Create
    renders CREATE without a match clause and [SET n = row]; merge-ignore
    renders MERGE on the primary key and [ON CREATE], a line break,
    [SET n = row]; merge-update renders MERGE on the primary key and
    [SET n = row]; merge on all attributes renders MERGE on every declared
    attribute and no SET clause.  Create and merge on all attributes do not
    look at the primary key; the two modes that merge on it raise without
    one.  For [x], [y] and [P] under Create the statement is
    [rendered_create_statement]. *)
Theorem nodes_from_rows_branching :
  (∀ attributes id_ labels m row_attr_map,
     Cypher.nodes_from_rows attributes (Some id_) labels m row_attr_map
     = Return (table_statement m id_ attributes labels row_attr_map))
  ∧ (∀ attributes labels row_attr_map,
       Cypher.nodes_from_rows attributes None labels CREATE row_attr_map
       = Return (table_statement CREATE "" attributes labels row_attr_map)
       ∧ Cypher.nodes_from_rows attributes None labels
           MERGE_ON_ALL_ATTRIBUTES row_attr_map
         = Return (table_statement MERGE_ON_ALL_ATTRIBUTES ""
                     attributes labels row_attr_map)
       ∧ returned (Cypher.nodes_from_rows attributes None labels
                     MERGE_ON_ID_IGNORE_ON_MATCH row_attr_map) = false
       ∧ returned (Cypher.nodes_from_rows attributes None labels
                     MERGE_ON_ID_SET_ATTR_ON_MATCH row_attr_map) = false)
  ∧ Cypher.nodes_from_rows ["x"; "y"] None ["P"] CREATE ∅
    = Return rendered_create_statement.
Proof.
  split; [|split].
  - intros. apply nodes_from_rows_table.
  - intros attributes labels row_attr_map. repeat split.
    + rewrite nodes_from_rows_no_id by auto. apply nodes_from_rows_table.
    + rewrite nodes_from_rows_no_id by auto. apply nodes_from_rows_table.
  - by vm_compute.
Qed.

(** * Sequential sessions *)

Ltac setters :=
  unfold driver_call, set_bookmarks, set_parallel_bookmarks,
    set_parallel_mode, set_futures, set_pool, warn;
  cbn [_bookmarks _parallel_bookmarks _parallel_mode _futures pool
       driver_log warnings].

Section sequential.
Variable drv : Driver.

Lemma current_bookmarks_lookup self db :
  current_bookmarks self db = default [] (_bookmarks self !! db).
Proof.
  unfold current_bookmarks, defaultdict_getitem.
  by destruct (_bookmarks self !! db).
Qed.

Lemma getitem_snd_lookup (d : gmap db_name (list token)) db db' :
  default [] ((defaultdict_getitem db d).2 !! db') = default [] (d !! db').
Proof.
  unfold defaultdict_getitem. destruct (d !! db) eqn:Hd; [done|].
  cbn [snd]. destruct (decide (db = db')) as [<-|Hne].
  - by rewrite lookup_insert_eq, Hd.
  - by rewrite lookup_insert_ne.
Qed.

Lemma query_of_session a cypher params db :
  query_of drv a cypher params db
  = _get_sequential_session drv db (_query drv a cypher params).
Proof. by destruct a. Qed.

Lemma query_commits a cypher params db self res :
  _parallel_mode self = false →
  run_tx drv (request self db a cypher params) = Return res →
  query_of drv a cypher params db self
  = (Return res,
     {| _bookmarks :=
          <[db := [last_bookmark drv (request self db a cypher params)]]>
            (_bookmarks self);
        _parallel_bookmarks := delete db (_parallel_bookmarks self);
        _parallel_mode := false;
        _futures := _futures self;
        pool := pool self;
        driver_log :=
          driver_log self
          ++ session_block db (current_bookmarks self db)
               {| q_access := a; q_cypher := cypher; q_params := params |}
               (last_bookmark drv (request self db a cypher params));
        warnings := warnings self |}).
Proof.
  intros Hmode Hrun. unfold request in *. rewrite query_of_session.
  unfold _get_sequential_session, current_bookmarks in *. rewrite Hmode.
  destruct (defaultdict_getitem db (_bookmarks self))
    as [bookmarks d] eqn:Hget.
  cbn [fst] in *. unfold _query. setters.
  rewrite <- !(assoc_L (++)). cbn [app]. rewrite Hrun.
  unfold session_block. setters. cbn [q_access q_cypher q_params].
  rewrite Hmode. do 2 f_equal.
  unfold defaultdict_getitem in Hget.
  destruct (_bookmarks self !! db); inversion Hget; subst; [done|].
  by rewrite insert_insert_eq.
Qed.

Lemma query_raises a cypher params db self e :
  _parallel_mode self = false →
  run_tx drv (request self db a cypher params) = Raise e →
  query_of drv a cypher params db self
  = (Raise e,
     {| _bookmarks := (defaultdict_getitem db (_bookmarks self)).2;
        _parallel_bookmarks := _parallel_bookmarks self;
        _parallel_mode := false;
        _futures := _futures self;
        pool := pool self;
        driver_log := request self db a cypher params ++ [SessionClose];
        warnings := warnings self |}).
Proof.
  intros Hmode Hrun. unfold request in *. rewrite query_of_session.
  unfold _get_sequential_session, current_bookmarks in *. rewrite Hmode.
  destruct (defaultdict_getitem db (_bookmarks self))
    as [bookmarks d] eqn:Hget.
  cbn [fst snd] in *. unfold _query. setters.
  rewrite <- !(assoc_L (++)). cbn [app]. rewrite Hrun.
  setters. by rewrite Hmode.
Qed.

Lemma sequential_usage_error a cypher params db self :
  _parallel_mode self = true →
  query_of drv a cypher params db self
  = (Raise (RuntimeError sequential_msg), self).
Proof.
  intros Hmode. rewrite query_of_session.
  unfold _get_sequential_session. by rewrite Hmode.
Qed.

(** A sequential query is seeded with the current bookmarks of its
    database, however it ends. *)
Lemma sequential_seed a cypher params db self :
  _parallel_mode self = false →
  ∃ rest,
    driver_log (query_of drv a cypher params db self).2
    = driver_log self ++ SessionOpen db (current_bookmarks self db) :: rest.
Proof.
  intros Hmode.
  destruct (run_tx drv (request self db a cypher params)) as [res|e] eqn:Hrun.
  - rewrite (query_commits _ _ _ _ _ res Hmode Hrun).
    cbn [snd driver_log]. unfold session_block. eauto.
  - rewrite (query_raises _ _ _ _ _ e Hmode Hrun).
    cbn [snd driver_log]. unfold request. rewrite <- (assoc_L (++)).
    cbn [app]. eauto.
Qed.

(** A sequential query leaves the bookmarks of the other databases alone. *)
Lemma sequential_frame a cypher params db db' self :
  db' ≠ db →
  current_bookmarks (query_of drv a cypher params db' self).2 db
  = current_bookmarks self db.
Proof.
  intros Hne. destruct (_parallel_mode self) eqn:Hmode.
  - by rewrite sequential_usage_error.
  - destruct (run_tx drv (request self db' a cypher params))
      as [res|e] eqn:Hrun.
    + rewrite (query_commits _ _ _ _ _ res Hmode Hrun).
      rewrite !current_bookmarks_lookup. cbn [snd _bookmarks].
      by rewrite lookup_insert_ne.
    + rewrite (query_raises _ _ _ _ _ e Hmode Hrun).
      rewrite !current_bookmarks_lookup. cbn [snd _bookmarks].
      apply getitem_snd_lookup.
Qed.

Lemma run_queries_cons db q qs self :
  run_queries drv db (q :: qs) self
  = match query_of drv (q_access q) (q_cypher q) (q_params q) db self with
    | (Return _, self) => run_queries drv db qs self
    | (Raise e, self) => (Raise e, self)
    end.
Proof. reflexivity. Qed.

Lemma last_cons_Some {A} (x : A) l :
  last (x :: l) = Some (default x (last l)).
Proof.
  revert x. induction l as [|y l IH]; intros x; [done|].
  by rewrite last_cons_cons, IH.
Qed.

Lemma closing_tokens_length db qs : ∀ log seed,
  length (closing_tokens drv db log seed qs) = length qs.
Proof.
  induction qs as [|q qs IH]; intros log seed; [done|].
  cbn [closing_tokens length]. by rewrite IH.
Qed.

(** A run of sessions that all close cleanly, with the tokens the driver
    handed out. *)
Lemma run_queries_tokens db qs : ∀ self,
  _parallel_mode self = false →
  (run_queries drv db qs self).1 = Return () →
  let toks :=
    closing_tokens drv db (driver_log self) (current_bookmarks self db) qs in
  driver_log (run_queries drv db qs self).2
  = driver_log self ++ chained_trace db (current_bookmarks self db) qs toks
  ∧ _bookmarks (run_queries drv db qs self).2 !! db
    = match last toks with
      | Some t => Some [t]
      | None => _bookmarks self !! db
      end
  ∧ _parallel_bookmarks (run_queries drv db qs self).2 !! db
    = match last toks with
      | Some t => None
      | None => _parallel_bookmarks self !! db
      end
  ∧ _parallel_mode (run_queries drv db qs self).2 = false
  ∧ warnings (run_queries drv db qs self).2 = warnings self.
Proof.
  induction qs as [|q qs IH]; intros self Hmode Hdone.
  - cbn. by rewrite app_nil_r.
  - rewrite run_queries_cons in *.
    destruct (run_tx drv
                (request self db (q_access q) (q_cypher q) (q_params q)))
      as [res|e] eqn:Hrun.
    + rewrite (query_commits _ _ _ _ _ res Hmode Hrun) in *.
      cbn [closing_tokens]. fold (request self db (q_access q) (q_cypher q)
                                    (q_params q)).
      set (bm := last_bookmark drv _) in *.
      set (self' := Build_Connector _ _ _ _ _ _ _) in *.
      assert (current_bookmarks self' db = [bm]) as Hseed.
      { rewrite current_bookmarks_lookup. subst self'. cbn.
        by rewrite lookup_insert_eq. }
      assert (driver_log self'
              = driver_log self
                ++ session_block db (current_bookmarks self db) q bm) as Hlog'.
      { subst self'. cbn [driver_log]. by destruct q. }
      destruct (IH self') as (Hlog & Hbm & Hpb & Hm & Hw); [done|done|].
      rewrite Hseed, Hlog' in Hlog, Hbm, Hpb.
      set (toks := closing_tokens drv db _ [bm] qs) in *.
      cbv zeta. rewrite last_cons_Some. repeat split; [| | |done|done].
      * rewrite Hlog. cbn [chained_trace]. by rewrite <- (assoc_L (++)).
      * rewrite Hbm. destruct (last toks); [done|].
        subst self'. cbn. by rewrite lookup_insert_eq.
      * rewrite Hpb. destruct (last toks); [done|].
        subst self'. cbn. by rewrite lookup_delete_eq.
    + by rewrite (query_raises _ _ _ _ _ e Hmode Hrun) in Hdone.
Qed.

Lemma run_queries_trace db qs : ∀ self,
  _parallel_mode self = false →
  (run_queries drv db qs self).1 = Return () →
  ∃ toks,
    length toks = length qs
    ∧ driver_log (run_queries drv db qs self).2
      = driver_log self ++ chained_trace db (current_bookmarks self db) qs toks
    ∧ _bookmarks (run_queries drv db qs self).2 !! db
      = match last toks with
        | Some t => Some [t]
        | None => _bookmarks self !! db
        end
    ∧ _parallel_bookmarks (run_queries drv db qs self).2 !! db
      = match last toks with
        | Some t => None
        | None => _parallel_bookmarks self !! db
        end
    ∧ _parallel_mode (run_queries drv db qs self).2 = false
    ∧ warnings (run_queries drv db qs self).2 = warnings self.
Proof.
  intros self Hmode Hdone.
  exists (closing_tokens drv db (driver_log self) (current_bookmarks self db)
            qs).
  split; [apply closing_tokens_length|].
  by apply run_queries_tokens.
Qed.

Lemma run_queries_complete db qs : ∀ self,
  (∀ log, returned (run_tx drv log) = true) →
  _parallel_mode self = false →
  (run_queries drv db qs self).1 = Return ().
Proof.
  induction qs as [|q qs IH]; intros self Hsrv Hmode; [done|].
  rewrite run_queries_cons.
  destruct (run_tx drv
              (request self db (q_access q) (q_cypher q) (q_params q)))
    as [res|e] eqn:Hrun.
  - rewrite (query_commits _ _ _ _ _ res Hmode Hrun). by apply IH.
  - specialize (Hsrv (request self db (q_access q) (q_cypher q) (q_params q))).
    by rewrite Hrun in Hsrv.
Qed.

End sequential.

(** C1. In sequential mode, a run of sessions against a database [db]
    that all close cleanly shows the driver one block per session, the
    first seeded with the bookmark list the connector held for [db] and
    every later one with the single token the session before it closed
    with; the token of a session is what the driver answered to
    [last_bookmark] at its close.  After the last of them the bookmark
    list of [db] is that one token and nothing is pending for [db].  The
    session that comes next against [db] is opened with exactly that list,
    however it ends; when it closes cleanly the bookmark list of [db] is
    its own closing token.  A sequential session against another database
    does not change the list of [db]. *)
Theorem sequential_bookmark_chain (drv : Driver) (db : db_name)
    (qs : list Query) (self : Connector) :
  _parallel_mode self = false →
  (run_queries drv db qs self).1 = Return () →
  let toks :=
    closing_tokens drv db (driver_log self) (current_bookmarks self db) qs in
  let final := (run_queries drv db qs self).2 in
  length toks = length qs
  ∧ driver_log final
    = driver_log self ++ chained_trace db (current_bookmarks self db) qs toks
  ∧ (qs ≠ [] →
     ∃ t, last toks = Some t
          ∧ _bookmarks final !! db = Some [t]
          ∧ current_bookmarks final db = [t]
          ∧ _parallel_bookmarks final !! db = None)
  ∧ (∀ a cypher params, ∃ rest,
       driver_log (query_of drv a cypher params db final).2
       = driver_log final
         ++ SessionOpen db (current_bookmarks final db) :: rest)
  ∧ (∀ a cypher params res,
       (query_of drv a cypher params db final).1 = Return res →
       _bookmarks (query_of drv a cypher params db final).2 !! db
       = Some [last_bookmark drv
                 (driver_log final
                  ++ [SessionOpen db (current_bookmarks final db);
                      TxRun a cypher params])]
       ∧ _parallel_bookmarks (query_of drv a cypher params db final).2 !! db
         = None)
  ∧ (∀ db' a cypher params,
       db' ≠ db →
       current_bookmarks (query_of drv a cypher params db' final).2 db
       = current_bookmarks final db).
Proof.
  intros Hmode Hdone toks final.
  destruct (run_queries_tokens drv db qs self Hmode Hdone)
    as (Hlog & Hbm & Hpb & Hm & _).
  fold toks final in Hlog, Hbm, Hpb, Hm.
  pose proof (closing_tokens_length drv db qs (driver_log self)
                (current_bookmarks self db)) as Hlen.
  fold toks in Hlen.
  split; [done|]. split; [done|]. split; [|split; [|split]].
  - intros Hqs. destruct toks as [|t0 toks']; [by destruct qs|].
    rewrite last_cons_Some in *. eexists. split; [done|].
    rewrite current_bookmarks_lookup, Hbm. by rewrite Hpb.
  - intros. by apply sequential_seed.
  - intros a cypher params res Hres.
    destruct (run_tx drv (request final db a cypher params))
      as [res'|e] eqn:Hrun.
    + rewrite (query_commits _ _ _ _ _ _ res' Hm Hrun). cbn [snd].
      cbn [_bookmarks _parallel_bookmarks].
      by rewrite lookup_insert_eq, lookup_delete_eq.
    + by rewrite (query_raises _ _ _ _ _ _ e Hm Hrun) in Hres.
  - intros. by apply sequential_frame.
Qed.

Lemma sequential_bookmark_chain_witness :
  driver_log (run_queries drv_ok (Some "neo4j") two_writes new_connector).2
  = chained_trace (Some "neo4j") [] two_writes ["bm2"; "bm6"]
  ∧ current_bookmarks
      (run_queries drv_ok (Some "neo4j") two_writes new_connector).2
      (Some "neo4j")
    = ["bm6"].
Proof.
  destruct (sequential_bookmark_chain drv_ok (Some "neo4j") two_writes
              new_connector eq_refl eq_refl)
    as (_ & Hlog & Hlast & _).
  split; [exact Hlog|].
  destruct Hlast as (t & Ht & _ & Hcur & _); [discriminate|].
  injection Ht as <-. exact Hcur.
Defined.

(** C10. A sequential [read_query] or [write_query] that raises leaves
    the connector as it was: every database reads the bookmark list it
    read before the call, and the pending parallel tokens, the mode and
    the futures are untouched.  A bookmark is recorded on clean close
    only. *)
Theorem sequential_failure_keeps_bookmarks (drv : Driver) (a : access)
    (cypher : string) (params : option (list row)) (db : db_name)
    (self : Connector) (e : exn) :
  (query_of drv a cypher params db self).1 = Raise e →
  (∀ d, current_bookmarks (query_of drv a cypher params db self).2 d
        = current_bookmarks self d)
  ∧ _parallel_bookmarks (query_of drv a cypher params db self).2
    = _parallel_bookmarks self
  ∧ _parallel_mode (query_of drv a cypher params db self).2
    = _parallel_mode self
  ∧ _futures (query_of drv a cypher params db self).2 = _futures self
  ∧ pool (query_of drv a cypher params db self).2 = pool self.
Proof.
  intros Hraise. destruct (_parallel_mode self) eqn:Hmode.
  - by rewrite sequential_usage_error.
  - destruct (run_tx drv (request self db a cypher params))
      as [res|e'] eqn:Hrun.
    + by rewrite (query_commits _ _ _ _ _ _ res Hmode Hrun) in Hraise.
    + rewrite (query_raises _ _ _ _ _ _ e' Hmode Hrun).
      cbn [snd _parallel_bookmarks _parallel_mode _futures pool].
      repeat split. intros d.
      rewrite !current_bookmarks_lookup. cbn [_bookmarks].
      apply getitem_snd_lookup.
Qed.

Lemma sequential_failure_keeps_bookmarks_witness :
  (write_query drv_fail "FAIL" None None new_connector).1
  = Raise (DriverError "rejected")
  ∧ current_bookmarks
      (write_query drv_fail "FAIL" None None new_connector).2 None
    = [].
Proof.
  split; [reflexivity|].
  apply (sequential_failure_keeps_bookmarks drv_fail WRITE "FAIL" None None
           new_connector (DriverError "rejected") eq_refl).
Defined.

(** * Batches *)

Lemma ceil_div_zero b : 0 < b → ceil_div 0 b = 0.
Proof. intros. unfold ceil_div. apply Nat.div_small. lia. Qed.

Lemma ceil_div_step m b :
  0 < b → 0 < m → ceil_div m b = S (ceil_div (m - b) b).
Proof.
  intros Hb Hm. unfold ceil_div.
  destruct (decide (b ≤ m)) as [Hle|Hlt].
  - replace (m + b - 1) with ((m - b + b - 1) + 1 * b) by lia.
    rewrite Nat.div_add by lia. lia.
  - replace (m - b) with 0 by lia. cbn [Nat.add].
    rewrite (Nat.div_small (b - 1)) by lia.
    replace (m + b - 1) with ((m - 1) + 1 * b) by lia.
    rewrite Nat.div_add by lia. by rewrite Nat.div_small by lia.
Qed.

(** [ceil_div n b] is the least number of batches of [b] rows that hold
    [n] rows. *)
Lemma ceil_div_spec n b :
  0 < b → n ≤ ceil_div n b * b ∧ (0 < n → (ceil_div n b - 1) * b < n).
Proof.
  intros Hb. unfold ceil_div.
  pose proof (Nat.div_mod_eq (n + b - 1) b) as Hdm.
  pose proof (Nat.mod_upper_bound (n + b - 1) b) as Hmod.
  split; [nia|]. intros Hn. nia.
Qed.

Lemma slice_take_drop {A} (rows : list A) off b :
  slice rows off (off + b) = take b (drop off rows).
Proof. unfold slice. f_equal. lia. Qed.

Lemma range_loop_concat {A} (rows : list A) b :
  0 < b → ∀ fuel off,
  length rows ≤ fuel + off →
  concat (batches_of rows b (range_loop fuel off (length rows) b))
  = drop off rows.
Proof.
  intros Hb. induction fuel as [|fuel IH]; intros off Hfuel.
  - cbn. by rewrite drop_ge by lia.
  - cbn [range_loop]. destruct (Nat.ltb_spec off (length rows)) as [Hlt|Hge].
    + change (batches_of rows b (off :: ?l))
        with (slice rows off (off + b) :: batches_of rows b l).
      rewrite concat_cons, IH by lia. rewrite slice_take_drop.
      rewrite <- (take_drop b (drop off rows)) at 2.
      by rewrite drop_drop.
    + cbn. by rewrite drop_ge by lia.
Qed.

Lemma range_loop_length n b :
  0 < b → ∀ fuel off,
  n ≤ fuel + off →
  length (range_loop fuel off n b) = ceil_div (n - off) b.
Proof.
  intros Hb. induction fuel as [|fuel IH]; intros off Hfuel.
  - cbn. replace (n - off) with 0 by lia. by rewrite ceil_div_zero.
  - cbn [range_loop]. destruct (Nat.ltb_spec off n) as [Hlt|Hge].
    + cbn [length]. rewrite IH by lia.
      rewrite (ceil_div_step (n - off)) by lia. do 2 f_equal. lia.
    + cbn. replace (n - off) with 0 by lia. by rewrite ceil_div_zero.
Qed.

Lemma range_loop_sizes {A} (rows : list A) b :
  0 < b → ∀ fuel off,
  Forall (λ batch : list A, 0 < length batch ≤ b)
    (batches_of rows b (range_loop fuel off (length rows) b)).
Proof.
  intros Hb. induction fuel as [|fuel IH]; intros off; [by constructor|].
  cbn [range_loop]. destruct (Nat.ltb_spec off (length rows)) as [Hlt|Hge].
  - cbn [batches_of map]. constructor; [|apply IH].
    rewrite slice_take_drop, length_take, length_drop. lia.
  - by constructor.
Qed.

Lemma range_positive n (b : Z) :
  (0 < b)%Z → range n b = Return (range_loop n 0 n (Z.to_nat b)).
Proof.
  intros Hb. unfold range.
  destruct (Z.eqb_spec b 0); [lia|]. by destruct (Z.ltb_spec b 0); [lia|].
Qed.

Lemma for_each_map {A B C} (g : A → B) (f : B → M C) l :
  for_each (map g l) f = for_each l (λ a, f (g a)).
Proof.
  induction l as [|a l IH]; [done|]. cbn [map for_each]. by rewrite IH.
Qed.

(** The sequential loop is a run of write sessions, one per batch, against
    the default database. *)
Lemma sequential_batches_run drv rows cypher (batch_size : Z) :
  (0 < batch_size)%Z →
  sequential_batches drv rows cypher batch_size
  = run_queries drv None
      (map (write_of cypher)
         (batches_of rows (Z.to_nat batch_size)
            (range_loop (length rows) 0 (length rows) (Z.to_nat batch_size)))).
Proof.
  intros Hb. unfold sequential_batches, run_queries, batches_of.
  rewrite range_positive by done. by rewrite !for_each_map.
Qed.

(** C7. For [n] rows and a positive batch size [b], the sequential path
    cuts the rows into [ceil_div n b] batches, each of at least one and at
    most [b] rows, whose concatenation is the row sequence; [ceil_div n b]
    is the least number of batches of [b] rows that hold [n] rows.  When the
    connector is in sequential mode and the database commits every
    transaction, it runs one write session per batch, in that order, each
    opened, run and closed before the next is opened, and returns. *)
Theorem sequential_batching (drv : Driver) (df : DataFrame) (cypher : string)
    (batch_size : Z) (self : Connector) :
  (0 < batch_size)%Z →
  _parallel_mode self = false →
  (∀ log, returned (run_tx drv log) = true) →
  ∃ batches toks,
    length batches = ceil_div (length (df_rows df)) (Z.to_nat batch_size)
    ∧ length (df_rows df) ≤ length batches * Z.to_nat batch_size
    ∧ (0 < length (df_rows df) →
       (length batches - 1) * Z.to_nat batch_size < length (df_rows df))
    ∧ concat batches = df_rows df
    ∧ Forall (λ batch : list row,
                0 < length batch ≤ Z.to_nat batch_size) batches
    ∧ length toks = length batches
    ∧ (_batch_query_df drv df cypher batch_size false self).1 = Return ()
    ∧ driver_log (_batch_query_df drv df cypher batch_size false self).2
      = driver_log self
        ++ chained_trace None (current_bookmarks self None)
             (map (write_of cypher) batches) toks.
Proof.
  intros Hb Hmode Hsrv.
  assert (0 < Z.to_nat batch_size) as Hb' by lia.
  set (rows := df_rows df). set (b := Z.to_nat batch_size) in *.
  set (batches := batches_of rows b (range_loop (length rows) 0 (length rows) b)).
  assert (_batch_query_df drv df cypher batch_size false
          = run_queries drv None (map (write_of cypher) batches)) as ->.
  { unfold _batch_query_df. by rewrite sequential_batches_run. }
  pose proof (run_queries_complete drv None (map (write_of cypher) batches)
                self Hsrv Hmode) as Hdone.
  destruct (run_queries_trace drv None _ self Hmode Hdone)
    as (toks & Hlen & Hlog & _).
  assert (length batches = ceil_div (length rows) b) as Hceil.
  { unfold batches, batches_of. rewrite length_map, range_loop_length by lia.
    f_equal. lia. }
  destruct (ceil_div_spec (length rows) b Hb') as [Hupper Hlower].
  exists batches, toks. split; [done|]. rewrite Hceil.
  split; [done|]. split; [done|]. repeat split.
  - unfold batches. rewrite range_loop_concat by lia. apply drop_0.
  - by apply range_loop_sizes.
  - by rewrite Hlen, length_map.
  - done.
  - done.
Qed.

Lemma sequential_batching_witness :
  ∃ batches toks,
    length batches = ceil_div 3 2
    ∧ concat batches = df_rows df3
    ∧ driver_log (_batch_query_df drv_ok df3 "CREATE (n)" 2 false
                    new_connector).2
      = chained_trace None [] (map (write_of "CREATE (n)") batches) toks.
Proof.
  destruct (sequential_batching drv_ok df3 "CREATE (n)" 2 new_connector)
    as (batches & toks & Hlen & _ & _ & Hcat & _ & _ & _ & Hlog).
  - reflexivity.
  - reflexivity.
  - intros log. reflexivity.
  - exists batches, toks. split; [exact Hlen|]. split; [exact Hcat|exact Hlog].
Defined.

(** * Parallel sessions *)

Lemma job_outside_scope drv j self :
  _parallel_mode self = false →
  job drv j self = (Raise (RuntimeError parallel_msg), self).
Proof.
  intros Hmode. unfold job, _get_parallel_session. by rewrite Hmode.
Qed.

(** A future submitted and awaited while the connector is in sequential
    mode: the job raises the usage error without a call to the driver. *)
Lemma future_outside_scope drv j self :
  _parallel_mode self = false →
  let submitted :=
    set_futures (_futures self ++ [length (pool self)])
      (set_pool (pool self ++ [{| fut_job := j; fut_outcome := None |}])
         self) in
  (future_result drv (length (pool self)) submitted).1
  = Raise (RuntimeError parallel_msg)
  ∧ driver_log (future_result drv (length (pool self)) submitted).2
    = driver_log self.
Proof.
  intros Hmode submitted. unfold future_result, worker_run.
  assert (pool submitted !! length (pool self)
          = Some {| fut_job := j; fut_outcome := None |}) as ->.
  { subst submitted. setters. by rewrite list_lookup_middle. }
  rewrite job_outside_scope by done. setters.
  rewrite list_lookup_insert_eq; [done|].
  subst submitted. setters. rewrite length_app. cbn. lia.
Qed.

(** The two usage errors.  [read_query] and [write_query] called in
    parallel mode raise at once and leave the connector, the driver log
    included, as it was.  [parallel_read_query] and [parallel_write_query]
    called in sequential mode return a future without a call to the
    driver; the job, when a worker runs it in sequential mode, raises the
    usage error before it opens a session. *)
Lemma mode_usage_errors (drv : Driver) (cypher : string)
    (params : option (list row)) (db : db_name)
    (par_self seq_self : Connector) :
  _parallel_mode par_self = true →
  _parallel_mode seq_self = false →
  read_query drv cypher params db par_self
  = (Raise (RuntimeError sequential_msg), par_self)
  ∧ write_query drv cypher params db par_self
    = (Raise (RuntimeError sequential_msg), par_self)
  ∧ (parallel_read_query cypher params db seq_self).1
    = Return (length (pool seq_self))
  ∧ driver_log (parallel_read_query cypher params db seq_self).2
    = driver_log seq_self
  ∧ (future_result drv (length (pool seq_self))
       (parallel_read_query cypher params db seq_self).2).1
    = Raise (RuntimeError parallel_msg)
  ∧ driver_log
      (future_result drv (length (pool seq_self))
         (parallel_read_query cypher params db seq_self).2).2
    = driver_log seq_self
  ∧ (parallel_write_query cypher params db seq_self).1
    = Return (length (pool seq_self))
  ∧ driver_log (parallel_write_query cypher params db seq_self).2
    = driver_log seq_self
  ∧ (future_result drv (length (pool seq_self))
       (parallel_write_query cypher params db seq_self).2).1
    = Raise (RuntimeError parallel_msg)
  ∧ driver_log
      (future_result drv (length (pool seq_self))
         (parallel_write_query cypher params db seq_self).2).2
    = driver_log seq_self.
Proof.
  intros Hpar Hseq.
  pose proof (future_outside_scope drv
                {| job_access := READ; job_cypher := cypher;
                   job_params := params; job_database := db |}
                seq_self Hseq) as [Hr1 Hr2].
  pose proof (future_outside_scope drv
                {| job_access := WRITE; job_cypher := cypher;
                   job_params := params; job_database := db |}
                seq_self Hseq) as [Hw1 Hw2].
  split; [apply (sequential_usage_error drv READ); done|].
  split; [apply (sequential_usage_error drv WRITE); done|].
  split; [done|]. split; [done|].
  split; [exact Hr1|]. split; [exact Hr2|].
  split; [done|]. split; [done|].
  split; [exact Hw1 | exact Hw2].
Qed.

(** C5 on the code.  A sequential write inside a scope raises the usage
    error at once and leaves the connector as it was.  A parallel write
    called in sequential mode does not raise: it returns a future, listed
    among the futures of the connector, without a call to the driver.  The
    guard against this call runs inside the job.  When a worker runs the
    job at once, the usage error ends up in the future; the future stays
    listed, so the next scope, whatever its block, raises that error when
    it is left and stays in parallel mode, with the write of that scope
    never awaited.  When the worker runs the job only after a scope has
    been entered, the guard passes and the write is sent. *)
Theorem parallel_query_outside_scope_on_code :
  let called := parallel_write_query "CREATE (n)" None None new_connector in
  let failed := worker_run drv_ok 0 called.2 in
  let next_scope :=
    parallelism drv_ok (parallel_write_query "CREATE (m)" None None) failed in
  let late := parallelism drv_ok (ret ()) called.2 in
  write_query drv_ok "CREATE (n)" None None parallel_connector
  = (Raise (RuntimeError sequential_msg), parallel_connector)
  ∧ _parallel_mode new_connector = false
  ∧ called.1 = Return 0
  ∧ driver_log called.2 = []
  ∧ _futures called.2 = [0]
  ∧ fut_outcome <$> pool failed !! 0
    = Some (Some (Raise (RuntimeError parallel_msg)))
  ∧ driver_log failed = []
  ∧ _futures failed = [0]
  ∧ next_scope.1 = Raise (RuntimeError parallel_msg)
  ∧ _parallel_mode next_scope.2 = true
  ∧ _futures next_scope.2 = [0; 1]
  ∧ fut_outcome <$> pool next_scope.2 !! 1 = Some None
  ∧ late.1 = Return ()
  ∧ driver_log late.2
    = session_block None []
        {| q_access := WRITE; q_cypher := "CREATE (n)"; q_params := None |}
        "bm2".
Proof. by vm_compute. Qed.

(** * Leaving a parallelism scope *)

(** Consolidation: a database with pending tokens reads them as its
    bookmark list afterwards, every other database reads what it read
    before, and nothing is pending any more. *)
Lemma consolidate_lookup self db :
  current_bookmarks (_consolidate_parallel_bookmarks self) db
  = match _parallel_bookmarks self !! db with
    | Some (t :: pending) => t :: pending
    | _ => current_bookmarks self db
    end.
Proof.
  rewrite !current_bookmarks_lookup.
  unfold _consolidate_parallel_bookmarks. setters.
  generalize (_parallel_bookmarks self). intros pending_map.
  apply (map_fold_weak_ind
           (λ r (m : gmap db_name (list token)),
              default [] (r !! db)
              = match m !! db with
                | Some (t :: pending) => t :: pending
                | _ => default [] (_bookmarks self !! db)
                end)).
  - by rewrite lookup_empty.
  - intros i pending m r Hi IH.
    destruct (decide (i = db)) as [->|Hne].
    + rewrite lookup_insert_eq. rewrite Hi in IH.
      destruct pending; [done|]. by rewrite lookup_insert_eq.
    + rewrite (lookup_insert_ne m) by done.
      destruct pending; [done|]. by rewrite lookup_insert_ne.
Qed.

Lemma consolidate_clears self :
  _parallel_bookmarks (_consolidate_parallel_bookmarks self) = ∅
  ∧ _parallel_mode (_consolidate_parallel_bookmarks self)
    = _parallel_mode self.
Proof. done. Qed.

(** When every future can be awaited, the scope is left in sequential
    mode, with no future outstanding, nothing pending and the pending
    tokens consolidated; the block's own outcome is passed on. *)
Lemma parallelism_clean_exit {A} drv (block : M A) self :
  let entered := (block (set_parallel_mode true self)).2 in
  (_await_futures drv entered).1 = Return () →
  parallelism drv block self
  = ((block (set_parallel_mode true self)).1,
     _consolidate_parallel_bookmarks
       (set_parallel_mode false (_await_futures drv entered).2))
  ∧ _parallel_mode (parallelism drv block self).2 = false
  ∧ _parallel_bookmarks (parallelism drv block self).2 = ∅.
Proof.
  intros entered Hawait. unfold parallelism. subst entered.
  destruct (block (set_parallel_mode true self)) as [r st].
  cbn [fst snd] in *.
  destruct (_await_futures drv st) as [[[]|e] st'] eqn:Ha; [|done].
  done.
Qed.

(** When awaiting a future raises, the scope is left at that point: with
    the exception of that future and the connector as the await loop left
    it. *)
Lemma parallelism_failed_exit {A} drv (block : M A) self e :
  let entered := (block (set_parallel_mode true self)).2 in
  (_await_futures drv entered).1 = Raise e →
  parallelism drv block self = (Raise e, (_await_futures drv entered).2).
Proof.
  intros entered Hawait. unfold parallelism. subst entered.
  destruct (block (set_parallel_mode true self)) as [r st].
  cbn [fst snd] in *.
  destruct (_await_futures drv st) as [[[]|e'] st'] eqn:Ha; [done|].
  cbn in Hawait. by injection Hawait as ->.
Qed.

(** Neither a job nor a worker nor an await changes the mode or the list
    of futures. *)
Lemma job_keeps_mode drv j self :
  _parallel_mode (job drv j self).2 = _parallel_mode self
  ∧ _futures (job drv j self).2 = _futures self.
Proof.
  unfold job, _get_parallel_session.
  destruct (_parallel_mode self) eqn:Hmode; [|done]. cbn [negb].
  destruct (defaultdict_getitem (job_database j) (_bookmarks self))
    as [bookmarks d].
  unfold _query. setters.
  destruct (run_tx drv _) as [res|e]; [|by setters].
  destruct (defaultdict_getitem (job_database j) (_parallel_bookmarks self))
    as [pending d'].
  by setters.
Qed.

Lemma worker_run_keeps_mode drv i self :
  _parallel_mode (worker_run drv i self) = _parallel_mode self
  ∧ _futures (worker_run drv i self) = _futures self.
Proof.
  unfold worker_run. destruct (pool self !! i) as [[j [r|]]|]; [done| |done].
  pose proof (job_keeps_mode drv j self) as Hjob.
  destruct (job drv j self) as [r st]. by setters.
Qed.

Lemma future_result_keeps_mode drv i self :
  _parallel_mode (future_result drv i self).2 = _parallel_mode self
  ∧ _futures (future_result drv i self).2 = _futures self.
Proof.
  unfold future_result.
  pose proof (worker_run_keeps_mode drv i self) as Hrun.
  by destruct (pool (worker_run drv i self) !! i ≫= fut_outcome).
Qed.

Lemma await_each_keeps_mode drv futures : ∀ self,
  _parallel_mode (for_each futures (future_result drv) self).2
  = _parallel_mode self
  ∧ _futures (for_each futures (future_result drv) self).2 = _futures self.
Proof.
  induction futures as [|i futures IH]; intros self; [done|].
  cbn [for_each]. unfold bind.
  pose proof (future_result_keeps_mode drv i self) as [Hm Hf].
  destruct (future_result drv i self) as [[r|e] st]; [|done].
  cbn [snd] in *. destruct (IH st) as [-> ->]. done.
Qed.

(** Whatever the block and whichever future fails: when awaiting raises,
    the scope is left in parallel mode with its futures still listed. *)
Lemma parallelism_failed_exit_stuck {A} drv (block : M A) self e :
  let entered := (block (set_parallel_mode true self)).2 in
  _parallel_mode entered = true →
  (_await_futures drv entered).1 = Raise e →
  (parallelism drv block self).1 = Raise e
  ∧ _parallel_mode (parallelism drv block self).2 = true
  ∧ _futures (parallelism drv block self).2 = _futures entered.
Proof.
  intros entered Hmode Hawait.
  rewrite (parallelism_failed_exit drv block self e Hawait).
  cbn [fst snd]. split; [done|].
  fold entered. unfold _await_futures, bind in *.
  pose proof (await_each_keeps_mode drv (_futures entered) entered)
    as [Hm Hf].
  destruct (for_each (_futures entered) (future_result drv) entered)
    as [[r|e'] st]; [done|].
  cbn [snd] in *. by rewrite Hm, Hf.
Qed.

(** C4 on the code.  Three parallel writes are submitted in a scope; the
    database rejects the second.  Leaving the scope raises that rejection
    as soon as the second future is awaited: the third future is never
    awaited, the connector stays in parallel mode with all three futures
    still listed, the token of the first write stays pending and is not
    consolidated, and the next sequential write raises the usage error. *)
Theorem parallelism_exit_stops_at_first_failure :
  (parallelism drv_fail three_writes new_connector).1
  = Raise (DriverError "rejected")
  ∧ _parallel_mode (parallelism drv_fail three_writes new_connector).2 = true
  ∧ _futures (parallelism drv_fail three_writes new_connector).2 = [0; 1; 2]
  ∧ fut_outcome
    <$> pool (parallelism drv_fail three_writes new_connector).2 !! 2
    = Some None
  ∧ _parallel_bookmarks (parallelism drv_fail three_writes new_connector).2
    !! None = Some ["bm2"]
  ∧ current_bookmarks (parallelism drv_fail three_writes new_connector).2 None
    = []
  ∧ (write_query drv_fail "CREATE (n)" None None
       (parallelism drv_fail three_writes new_connector).2).1
    = Raise (RuntimeError sequential_msg).
Proof. by vm_compute. Qed.

(** * Bulk creation of nodes and edges *)

Lemma bind_inv {A B} (m : M A) (k : A → M B) self b self' :
  bind m k self = (Return b, self') →
  ∃ a s, m self = (Return a, s) ∧ k a s = (Return b, self').
Proof.
  unfold bind. destruct (m self) as [[a|e] s]; [eauto|done].
Qed.

Ltac inv_bind H :=
  let a := fresh "x" in
  let s := fresh "st" in
  let H1 := fresh "Hstep" in
  apply bind_inv in H as (a & s & H1 & H).

Lemma node_eligible_spec (m : NodeCreationMode.t) :
  py_in (NodeMode m) [NodeMode CREATE; NodeMode MERGE_ON_ID_IGNORE_ON_MATCH]
  = bool_decide (m = CREATE ∨ m = MERGE_ON_ID_IGNORE_ON_MATCH).
Proof. destruct m; by vm_compute. Qed.

Lemma save_nodes_df_flag drv df label id_ creation_mode df_key_to_attr_map
    cypher self cypher_ parallel self' :
  save_nodes_df_prepare drv df label id_ creation_mode df_key_to_attr_map
    cypher self = (Return (cypher_, parallel), self') →
  parallel
  = bool_decide (default CREATE creation_mode = CREATE
                 ∨ default CREATE creation_mode = MERGE_ON_ID_IGNORE_ON_MATCH)
    && bool_decide (cypher = None).
Proof.
  intros H. unfold save_nodes_df_prepare in H.
  do 5 inv_bind H. injection H as _ <- _.
  destruct cypher as [c|].
  - by rewrite !andb_false_r.
  - injection Hstep as <- _.
    destruct (default CREATE creation_mode); by vm_compute.
Qed.

Lemma save_nodes_np_flag drv array attributes label id_ creation_mode
    cypher self cypher_ parallel self' :
  save_nodes_np_prepare drv array attributes label id_ creation_mode
    cypher self = (Return (cypher_, parallel), self') →
  parallel
  = bool_decide (default CREATE creation_mode = CREATE
                 ∨ default CREATE creation_mode = MERGE_ON_ID_IGNORE_ON_MATCH)
  ∧ cypher = Some cypher_
  ∧ (truthy cypher = true → ∃ ws, warnings self' = ws ++ [nodes_np_warning]).
Proof.
  intros H. unfold save_nodes_np_prepare in H.
  do 6 inv_bind H. injection H as <- <- <-.
  split; [destruct (default CREATE creation_mode); by vm_compute|].
  destruct cypher as [c|]; [|done].
  injection Hstep4 as <- <-. split; [done|].
  intros Htruthy. rewrite Htruthy in Hstep3. injection Hstep3 as _ <-.
  by eexists.
Qed.

Lemma sequential_batches_returns drv rows cypher (batch_size : Z) self :
  batch_size ≠ 0%Z →
  _parallel_mode self = false →
  (∀ log, returned (run_tx drv log) = true) →
  (sequential_batches drv rows cypher batch_size self).1 = Return ()
  ∧ warnings (sequential_batches drv rows cypher batch_size self).2
    = warnings self.
Proof.
  intros Hb Hmode Hsrv. destruct (Z.ltb_spec 0 batch_size) as [Hpos|Hneg].
  - rewrite sequential_batches_run by done.
    set (qs := map _ _).
    pose proof (run_queries_complete drv None qs self Hsrv Hmode) as Hdone.
    destruct (run_queries_trace drv None qs self Hmode Hdone)
      as (toks & _ & _ & _ & _ & _ & Hw).
    done.
  - unfold sequential_batches, range.
    destruct (Z.eqb_spec batch_size 0); [done|].
    by destruct (Z.ltb_spec batch_size 0); [|lia].
Qed.

Lemma rel_can_run_parallel_spec c s d :
  rel_can_run_parallel c s d = true
  ↔ c = RelCreationMode.CREATE
    ∧ s = RelNodeCreationMode.MATCH ∧ d = RelNodeCreationMode.MATCH.
Proof.
  destruct c, s, d; vm_compute; split; try done; intros (? & ? & ?); done.
Qed.

(** C3 on the code.  The flag [can_run_parallel] of [save_rel_df] is set
    exactly when the edge mode is Create and both endpoint modes are
    Match.  The scenario of the specification holds: Match, Match, Create
    is eligible and Merge, Match, Create is not.  But an endpoint mode
    Create makes the call ineligible: with source mode Create, destination
    mode Match and edge mode Create, [save_rel_df] builds its statement and
    hands the batches to the sequential path. *)
Theorem rel_parallel_eligibility_on_code :
  (∀ c s d,
     rel_can_run_parallel c s d = true
     ↔ c = RelCreationMode.CREATE
       ∧ s = RelNodeCreationMode.MATCH ∧ d = RelNodeCreationMode.MATCH)
  ∧ rel_can_run_parallel RelCreationMode.CREATE
      RelNodeCreationMode.MATCH RelNodeCreationMode.MATCH = true
  ∧ rel_can_run_parallel RelCreationMode.CREATE
      RelNodeCreationMode.MERGE RelNodeCreationMode.MATCH = false
  ∧ rel_can_run_parallel RelCreationMode.CREATE
      RelNodeCreationMode.CREATE RelNodeCreationMode.MATCH = false
  ∧ snd <$> (save_rel_df_prepare drv_ok df3 "A" "a" "B" "b" (Some "R")
               None None
               (Some RelNodeCreationMode.CREATE)
               (Some RelNodeCreationMode.MATCH)
               (Some RelCreationMode.CREATE) None None new_connector).1
    = Return false.
Proof.
  split; [apply rel_can_run_parallel_spec|]. by vm_compute.
Qed.


(** * String literals ([escaped_str]) *)

Lemma replace_char_app old new s t :
  replace_char old new (s +:+ t)
  = replace_char old new s +:+ replace_char old new t.
Proof.
  induction s as [|c s IH]; [done|].
  rewrite append_cons. cbn [replace_char]. rewrite IH.
  destruct (Ascii.eqb c old); [by rewrite append_assoc|done].
Qed.

Lemma read_escaped_body s rest :
  read_literal_body
    (replace_char dquote (String backslash (String dquote ""))
       (replace_char backslash "\\" s)
     +:+ String dquote rest)
  = Some (s, rest).
Proof.
  induction s as [|c s IH].
  - cbn [replace_char]. rewrite append_nil. cbn [read_literal_body].
    by rewrite Ascii.eqb_refl.
  - cbn [replace_char].
    destruct (Ascii.eqb_spec c backslash) as [->|Hbs].
    + rewrite replace_char_app. rewrite append_assoc.
      change (replace_char dquote (String backslash (String dquote "")) "\\")
        with "\\".
      rewrite !append_cons, append_nil. cbn [read_literal_body].
      change (Ascii.eqb "\" dquote) with false.
      change (Ascii.eqb "\" backslash) with true. cbn match.
      by rewrite IH.
    + cbn [replace_char]. destruct (Ascii.eqb_spec c dquote) as [->|Hdq].
      * rewrite !append_cons, append_nil.
        cbn [read_literal_body].
        change (Ascii.eqb backslash dquote) with false.
        rewrite Ascii.eqb_refl. cbn match. by rewrite IH.
      * rewrite append_cons. cbn [read_literal_body].
        destruct (Ascii.eqb_spec c dquote); [done|].
        destruct (Ascii.eqb_spec c backslash); [done|].
        by rewrite IH.
Qed.

(** X1. Whatever text follows it, the output of [escaped_str] reads back
    as one string literal: the reader stops at the closing quote, returns
    the original string and leaves the following text untouched.  Hence
    [escaped_str] is injective. *)
Theorem escaped_str_reads_back (s rest : string) :
  read_string_literal (escaped_str s +:+ rest) = Some (s, rest)
  ∧ (∀ s', escaped_str s = escaped_str s' ↔ s = s').
Proof.
  assert (∀ s rest, read_string_literal (escaped_str s +:+ rest) = Some (s, rest))
    as Hread.
  { clear. intros s rest. unfold escaped_str, read_string_literal.
    rewrite append_cons. rewrite Ascii.eqb_refl.
    rewrite append_assoc, append_cons, append_nil.
    apply read_escaped_body. }
  split; [apply Hread|].
  intros s'. split; [|by intros ->].
  intros Heq. pose proof (Hread s "") as H1. rewrite Heq, Hread in H1.
  by injection H1.
Qed.

Lemma scan_positional pre : ∀ rest a args kwargs,
  no_brace pre = true →
  format_scan FmtText (pre +:+ "{}" +:+ rest) (a :: args) kwargs
  = String.append (pre +:+ a) <$> format_scan FmtText rest args kwargs.
Proof.
  induction pre as [|c pre IH]; intros rest a args kwargs Hnb.
  - rewrite !append_nil, !append_cons, append_nil. by cbn.
  - rewrite (append_cons c pre). cbn [format_scan]. cbn [no_brace] in Hnb.
    destruct (Ascii.eqb c "{"); [done|]. destruct (Ascii.eqb c "}"); [done|].
    rewrite IH by done.
    by destruct (format_scan FmtText rest args kwargs).
Qed.

Lemma format_one_field pre post a :
  no_brace pre = true → no_brace post = true →
  str_format (pre +:+ "{}" +:+ post) [a] [] = Return (pre +:+ a +:+ post).
Proof.
  intros Hpre Hpost. unfold str_format.
  rewrite scan_positional, format_scan_no_brace by done.
  cbn. by rewrite append_assoc.
Qed.

(** * Loading *)

Section load.
Variable drv : Driver.

Lemma load_query_shape pre post label (cypher : option string) self :
  no_brace pre = true → no_brace post = true →
  ((if negb (String.eqb label "") && truthy cypher
    then modify (warn load_warning) else ret ()) ;;
   do query <- lift (format_escaped (pre +:+ "{}" +:+ post) [label] []);
   read_query drv query None None) self
  = read_query drv (pre +:+ escape label +:+ post) None None
      (if negb (String.eqb label "") && truthy cypher
       then warn load_warning self else self).
Proof.
  intros Hpre Hpost. unfold format_escaped. cbn [map].
  rewrite format_one_field by done.
  by destruct (negb (String.eqb label "") && truthy cypher).
Qed.

(** X2. The three load methods never use their [cypher] argument: the
    query they send is always the default one for the escaped label, on a
    sequential read session of the default database.  A custom statement
    together with a non-empty label only adds a warning. *)
Theorem load_ignores_custom_statement (label : string)
    (cypher : option string) (self : Connector) :
  load_nodes_df_query drv label cypher self
  = read_query drv ("MATCH (n:" +:+ escape label +:+ ") RETURN n") None None
      (if negb (String.eqb label "") && truthy cypher
       then warn load_warning self else self)
  ∧ load_rel_df_query drv label cypher self
    = read_query drv ("MATCH ()-[r:" +:+ escape label +:+ "]->() RETURN r")
        None None
        (if negb (String.eqb label "") && truthy cypher
         then warn load_warning self else self)
  ∧ load_nodes_np_query drv label cypher self
    = read_query drv ("MATCH (n:" +:+ escape label +:+ ") RETURN n") None None
        (if negb (String.eqb label "") && truthy cypher
         then warn load_warning self else self).
Proof.
  repeat split.
  - apply (load_query_shape "MATCH (n:" ") RETURN n"); done.
  - apply (load_query_shape "MATCH ()-[r:" "]->() RETURN r"); done.
  - apply (load_query_shape "MATCH (n:" ") RETURN n"); done.
Qed.
End load.

Lemma no_brace_replace old new s :
  no_brace new = true → no_brace s = true →
  no_brace (replace_char old new s) = true.
Proof.
  intros Hnew. induction s as [|c s IH]; [done|].
  cbn [no_brace replace_char]. intros H.
  apply andb_true_iff in H as [Hc Hs].
  destruct (Ascii.eqb c old).
  - rewrite no_brace_app, Hnew. by apply IH.
  - cbn [no_brace]. rewrite Hc. by apply IH.
Qed.

Lemma no_brace_escape s : no_brace s = true → no_brace (escape s) = true.
Proof.
  intros H. unfold escape. rewrite !no_brace_app.
  by rewrite no_brace_replace.
Qed.

Lemma format_index_pair_in in_name i key :
  no_brace in_name = true →
  format_escaped
    ("{key}: " +:+ escape in_name +:+ "[" +:+ str_of_int i +:+ "]")
    [] [("key", key)]
  = Return (index_pair_in in_name (i, key)).
Proof.
  intros Hnb. unfold format_escaped, str_format, index_pair_in.
  cbn [map fst snd].
  change ("{key}: " +:+ escape in_name +:+ "[" +:+ str_of_int i +:+ "]")
    with (String "{"
            ("key" +:+ String "}"
               (": " +:+ escape in_name +:+ "[" +:+ str_of_int i +:+ "]"))).
  rewrite scan_keyword, kw_lookup_head by done.
  rewrite format_scan_no_brace; [done|].
  by rewrite !no_brace_app, no_brace_str_of_int, no_brace_escape.
Qed.

Lemma enumerate_from_length {A} (l : list A) : ∀ i,
  length (Cypher.enumerate_from i l) = length l.
Proof. induction l as [|a l IH]; intros i; [done|]. cbn. by rewrite IH. Qed.

Lemma zip_length {A B} (l : list A) : ∀ k : list B,
  length (Cypher.zip l k) = min (length l) (length k).
Proof.
  induction l as [|a l IH]; intros [|b k]; [done..|]. cbn. by rewrite IH.
Qed.

(** X3. For a row name without braces, [row_as_dict] returns for every
    list of attribute keys, whatever characters they hold: each key is
    escaped and paired with its index, and the output name is escaped.
    Without indexes, or with an empty list of them, there is one pair per
    attribute, numbered from 0; with indexes there are as many pairs as
    the shorter of the two lists has elements. *)
Theorem row_as_dict_any_keys (attributes : list string)
    (in_name out_name : string) (attribute_indexes : option (list Z)) :
  no_brace in_name = true →
  Cypher.row_as_dict attributes in_name out_name attribute_indexes
  = Return ("{" +:+ String.concat ", "
                      (map (index_pair_in in_name)
                         (attr_idx_iter attributes attribute_indexes))
            +:+ "} AS " +:+ escape out_name)
  ∧ length (attr_idx_iter attributes attribute_indexes)
    = match attribute_indexes with
      | Some (i :: idx) => min (length (i :: idx)) (length attributes)
      | _ => length attributes
      end.
Proof.
  intros Hnb. split.
  - unfold Cypher.row_as_dict. fold (attr_idx_iter attributes attribute_indexes).
    rewrite (all_ok_map _ (index_pair_in in_name)); [done|].
    intros [i key]. by apply format_index_pair_in.
  - unfold attr_idx_iter. destruct attribute_indexes as [[|i idx]|].
    + apply enumerate_from_length.
    + apply zip_length.
    + apply enumerate_from_length.
Qed.



(** * Sorting *)

Lemma string_leb_iff s1 s2 :
  String.leb s1 s2 = true ↔ String_as_OT.lt s1 s2 ∨ s1 = s2.
Proof.
  unfold String.leb. destruct (String.compare s1 s2) eqn:Hcmp.
  - apply String_as_OT.cmp_eq in Hcmp. tauto.
  - apply String_as_OT.cmp_lt in Hcmp. tauto.
  - split; [done|]. intros [Hlt | ->].
    + apply String_as_OT.cmp_lt in Hlt. unfold String_as_OT.cmp in Hlt.
      congruence.
    + assert (String_as_OT.cmp s2 s2 = Eq) as Heq
        by by apply String_as_OT.cmp_eq.
      unfold String_as_OT.cmp in Heq. congruence.
Qed.

#[local] Instance string_le_trans : Transitive string_le.
Proof.
  intros x y z Hxy Hyz. unfold string_le in *.
  apply string_leb_iff in Hxy, Hyz. apply string_leb_iff.
  destruct Hxy as [Hxy | ->]; [|done].
  destruct Hyz as [Hyz | <-]; [|by left].
  left. by apply (String_as_OT.lt_trans x y z).
Qed.

#[local] Instance string_le_antisym : AntiSymm (=) string_le.
Proof. intros x y Hxy Hyx. by apply String.leb_antisym. Qed.

Lemma sort_insert_perm x l : sort_insert x l ≡ₚ x :: l.
Proof.
  induction l as [|y l IH]; [done|].
  cbn [sort_insert]. destruct (String.leb x y); [done|].
  rewrite IH. apply Permutation_swap.
Qed.

Lemma sort_perm l : sort l ≡ₚ l.
Proof.
  induction l as [|x l IH]; [done|].
  cbn [sort foldr]. fold (sort l). by rewrite sort_insert_perm, IH.
Qed.

Lemma sort_insert_sorted x l :
  StronglySorted string_le l → StronglySorted string_le (sort_insert x l).
Proof.
  induction 1 as [|y l Hl IH Hy]; [by repeat constructor|].
  cbn [sort_insert]. destruct (String.leb x y) eqn:Hxy.
  - constructor; [by constructor|].
    constructor; [done|].
    eapply Forall_impl; [exact Hy|]. intros z Hz. by trans y.
  - constructor; [done|].
    rewrite sort_insert_perm. constructor; [|done].
    destruct (String.leb_total x y) as [H|H]; [congruence|done].
Qed.

Lemma sort_sorted l : StronglySorted string_le (sort l).
Proof.
  induction l as [|x l IH]; [constructor|].
  cbn [sort foldr]. fold (sort l). by apply sort_insert_sorted.
Qed.

Lemma sort_permutation l l' : l ≡ₚ l' → sort l = sort l'.
Proof.
  intros Hp. apply (StronglySorted_unique string_le); [apply sort_sorted..|].
  by rewrite !sort_perm.
Qed.

(** X5. The index methods sort their attributes: two attribute lists
    that are permutations of each other give the same index name, the
    same statement and the same effect on the connector. *)
Theorem index_ignores_attribute_order (drv : Driver) (label : string)
    (attributes attributes' : list string) :
  attributes ≡ₚ attributes' →
  create_node_index drv label (Iterable attributes)
  = create_node_index drv label (Iterable attributes')
  ∧ create_rel_index drv label (Iterable attributes)
    = create_rel_index drv label (Iterable attributes').
Proof.
  intros Hp. pose proof (sort_permutation _ _ Hp) as Hsort.
  unfold create_node_index, create_rel_index.
  destruct attributes as [|a l], attributes' as [|a' l'].
  - done.
  - by apply Permutation_nil_cons in Hp.
  - symmetry in Hp. by apply Permutation_nil_cons in Hp.
  - by rewrite Hsort.
Qed.

Lemma no_brace_concat sep l :
  no_brace sep = true → Forall (λ s, no_brace s = true) l →
  no_brace (String.concat sep l) = true.
Proof.
  intros Hsep. induction 1 as [|s l Hs Hl IH]; [done|].
  destruct l as [|s' l]; [done|].
  change (String.concat sep (s :: s' :: l))
    with (s +:+ sep +:+ String.concat sep (s' :: l)).
  by rewrite !no_brace_app, Hs, Hsep, IH.
Qed.

Lemma format_two_fields pre mid post a b :
  no_brace pre = true → no_brace mid = true →
  str_format (pre +:+ "{}" +:+ mid +:+ "{}" +:+ post) [a; b] []
  = String.append (pre +:+ a +:+ mid +:+ b) <$> format_scan FmtText post [] [].
Proof.
  intros Hpre Hmid. unfold str_format.
  rewrite scan_positional by done. rewrite scan_positional by done.
  destruct (format_scan FmtText post [] []); [|done].
  cbn. by rewrite !append_assoc.
Qed.

Section index.
Variable drv : Driver.

Lemma index_statement_built kind pattern_open pattern_close var label
    (attributes : list string) :
  no_brace kind = true → no_brace pattern_open = true →
  no_brace pattern_close = true →
  no_brace label = true →
  Forall (λ a, no_brace a = true) attributes →
  let index_name :=
    kind +:+ double_underscores label +:+ "_"
    +:+ String.concat "_" (map double_underscores attributes) in
  str_format (kind +:+ "{}" +:+ "_" +:+ "{}" +:+ "")
    [replace_char "_" "__" label;
     String.concat "_" (map (replace_char "_" "__") attributes)] []
  = Return index_name
  ∧ (tmpl ← format_escaped
        ("CREATE INDEX " +:+ "{}" +:+ pattern_open +:+ "{}"
         +:+ pattern_close +:+ "{{}})")
        [index_name; label] [];
     str_format tmpl
       [String.concat ", " (map (λ attr, var +:+ escape attr) attributes)] [])
    = Return ("CREATE INDEX " +:+ escape index_name +:+ pattern_open
              +:+ escape label +:+ pattern_close
              +:+ String.concat ", " (map (λ attr, var +:+ escape attr)
                                         attributes)
              +:+ ")").
Proof.
  intros Hkind Hopen Hclose Hlabel Hattrs index_name.
  assert (no_brace index_name = true) as Hname.
  { subst index_name. rewrite !no_brace_app, Hkind.
    unfold double_underscores. rewrite no_brace_replace by done.
    rewrite no_brace_concat; [done|done|].
    apply Forall_map. eapply Forall_impl; [exact Hattrs|].
    intros a Ha. by apply no_brace_replace. }
  split.
  - rewrite format_two_fields by done. cbn. subst index_name.
    unfold double_underscores. by rewrite !append_assoc, append_nil_r.
  - unfold format_escaped. cbn [map].
    rewrite format_two_fields by done.
    assert (format_scan FmtText (pattern_close +:+ "{{}})") [] []
            = Return (pattern_close +:+ "{})")) as ->.
    { clear -Hclose. induction pattern_close as [|c s IH]; [done|].
      rewrite !append_cons. cbn [format_scan no_brace] in *.
      destruct (Ascii.eqb c "{"); [done|]. destruct (Ascii.eqb c "}"); [done|].
      by rewrite IH. }
    cbn [fmap Exc_fmap mbind Exc_bind].
    replace (("CREATE INDEX " +:+ escape index_name +:+ pattern_open
              +:+ escape label) +:+ pattern_close +:+ "{})")
      with (("CREATE INDEX " +:+ escape index_name +:+ pattern_open
             +:+ escape label +:+ pattern_close) +:+ "{}" +:+ ")")
      by by rewrite !append_assoc.
    rewrite format_one_field.
    + by rewrite !append_assoc.
    + by rewrite !no_brace_app, !no_brace_escape, Hopen, Hclose.
    + done.
Qed.

End index.

Section index2.
Variable drv : Driver.

Lemma index_computation kind pattern_open pattern_close var label
    (attributes : list string) (self : Connector) :
  no_brace kind = true → no_brace pattern_open = true →
  no_brace pattern_close = true →
  no_brace label = true →
  Forall (λ a, no_brace a = true) attributes →
  let index_name :=
    kind +:+ double_underscores label +:+ "_"
    +:+ String.concat "_" (map double_underscores attributes) in
  (do index_name <-
     lift (str_format (kind +:+ "{}" +:+ "_" +:+ "{}" +:+ "")
             [replace_char "_" "__" label;
              String.concat "_" (map (replace_char "_" "__") attributes)]
             []);
   do tmpl <-
     lift (format_escaped
             ("CREATE INDEX " +:+ "{}" +:+ pattern_open +:+ "{}"
              +:+ pattern_close +:+ "{{}})")
             [index_name; label] []);
   do cypher <-
     lift (str_format tmpl
             [String.concat ", " (map (λ attr, var +:+ escape attr)
                                      attributes)]
             []);
   write_query drv cypher None None ;;
   ret index_name) self
  = (write_query drv
       ("CREATE INDEX " +:+ escape index_name +:+ pattern_open
        +:+ escape label +:+ pattern_close
        +:+ String.concat ", " (map (λ attr, var +:+ escape attr) attributes)
        +:+ ")") None None ;;
     ret index_name) self.
Proof.
  intros Hkind Hopen Hclose Hlabel Hattrs index_name.
  destruct (index_statement_built kind pattern_open pattern_close var label
              attributes Hkind Hopen Hclose Hlabel Hattrs) as [Hname Hstmt].
  fold index_name in Hname, Hstmt.
  unfold bind at 1. unfold lift at 1. rewrite Hname. cbv beta iota.
  destruct (format_escaped _ [index_name; label] []) as [tmpl|e] eqn:Htmpl;
    [|done].
  cbn [mbind Exc_bind] in Hstmt.
  unfold bind at 1. unfold lift at 1. cbv beta iota.
  unfold bind at 1. unfold lift at 1. by rewrite Hstmt.
Qed.

(** X6. For a label and a non-empty list of attributes without braces,
    [create_node_index] and [create_rel_index] run exactly one sequential
    write, [CREATE INDEX name IF NOT EXISTS ...] over the sorted, escaped
    attributes, and return the index name, in which the underscores of
    the label and of the attributes are doubled. *)
Theorem create_index_statement (label : string) (attributes : list string)
    (self : Connector) :
  attributes ≠ [] →
  no_brace label = true →
  Forall (λ a, no_brace a = true) attributes →
  create_node_index drv label (Iterable attributes) self
  = (write_query drv (node_index_statement label attributes) None None ;;
     ret (node_index_name label attributes)) self
  ∧ create_rel_index drv label (Iterable attributes) self
    = (write_query drv (rel_index_statement label attributes) None None ;;
       ret (rel_index_name label attributes)) self.
Proof.
  intros Hne Hlabel Hattrs.
  assert (Forall (λ a, no_brace a = true) (sort attributes)) as Hsorted
    by by rewrite sort_perm.
  destruct attributes as [|a l]; [done|].
  split.
  - apply (index_computation "node_index_" " IF NOT EXISTS FOR (n:"
             ") ON (" "n." label (sort (a :: l)) self); done.
  - apply (index_computation "rel_index_" " IF NOT EXISTS FOR ()-[r:"
             "]-() ON (" "r." label (sort (a :: l)) self); done.
Qed.
End index2.

(** * The array path with a statement of the caller *)

Section array_path.
Variable drv : Driver.

Lemma in_list_In x l : in_list x l = true → x ∈ l.
Proof.
  unfold in_list. rewrite existsb_exists. intros (y & Hy & Heq).
  apply String.eqb_eq in Heq as ->. by apply list_elem_of_In.
Qed.

(** The index methods, in sequential mode and against a database that
    commits: one sequential write of the index statement. *)
Lemma create_node_index_commits label attributes self :
  attributes ≠ [] →
  no_brace label = true →
  Forall (λ a, no_brace a = true) attributes →
  _parallel_mode self = false →
  (∀ log, returned (run_tx drv log) = true) →
  ∃ st,
    create_node_index drv label (Iterable attributes) self
    = (Return (node_index_name label attributes), st)
    ∧ _parallel_mode st = false
    ∧ warnings st = warnings self
    ∧ driver_log st
      = driver_log self
        ++ session_block None (current_bookmarks self None)
             (index_query label attributes)
             (last_bookmark drv
                (request self None WRITE
                   (node_index_statement label attributes) None)).
Proof.
  intros Hne Hlabel Hattrs Hmode Hsrv.
  assert (Forall (λ a, no_brace a = true) (sort attributes)) as Hsorted
    by by rewrite sort_perm.
  assert (create_node_index drv label (Iterable attributes) self
          = (write_query drv (node_index_statement label attributes) None
               None ;;
             ret (node_index_name label attributes)) self) as ->.
  { destruct attributes as [|a l]; [done|].
    apply (index_computation drv "node_index_" " IF NOT EXISTS FOR (n:"
             ") ON (" "n." label (sort (a :: l)) self); done. }
  unfold bind.
  destruct (run_tx drv (request self None WRITE
                          (node_index_statement label attributes) None))
    as [res|e] eqn:Hrun.
  - change (write_query drv) with (query_of drv WRITE).
    rewrite (query_commits drv _ _ _ _ _ res Hmode Hrun).
    eexists. split; [reflexivity|]. done.
  - specialize (Hsrv (request self None WRITE
                        (node_index_statement label attributes) None)).
    by rewrite Hrun in Hsrv.
Qed.

(** The checks of [save_nodes_np] pass for an array whose second dimension
    is the number of attributes. *)
Lemma shape_check_passes (array : ndarray) (attributes : list string) :
  2 ≤ length (shape array) →
  shape array !! 1 = Some (length attributes) →
  (length (shape array) <? 2)%nat
  || negb (bool_decide (shape array !! 1 = Some (length attributes)))
  = false.
Proof.
  intros Hdim Hcols. destruct (Nat.ltb_spec (length (shape array)) 2); [lia|].
  by rewrite bool_decide_eq_true_2.
Qed.

Lemma shape_msg_built (array : ndarray) :
  str_format shape_msg_template [repr_shape (shape array)] []
  = Return ("array must have shape (n, m[, ...]) with m >= 2 and m == len(attributes), but had shape "
            +:+ repr_shape (shape array)).
Proof.
  change shape_msg_template
    with ("array must have shape (n, m[, ...]) with m >= 2 and m == len(attributes), but had shape "
          +:+ "{}" +:+ "").
  rewrite format_one_field by done. by rewrite append_nil_r.
Qed.

(** With a statement of the caller and a primary key among the
    attributes, [save_nodes_np] gets as far as dispatching its batches,
    under every creation mode. *)
Lemma save_nodes_np_prepare_returns array attributes label id creation_mode
    c self :
  2 ≤ length (shape array) →
  shape array !! 1 = Some (length attributes) →
  id ≠ "" →
  in_list id attributes = true →
  no_brace label = true →
  Forall (λ a, no_brace a = true) attributes →
  _parallel_mode self = false →
  (∀ log, returned (run_tx drv log) = true) →
  ∃ self',
    save_nodes_np_prepare drv array attributes label (Some id) creation_mode
      (Some c) self
    = (Return (c, bool_decide
                    (default CREATE creation_mode = CREATE
                     ∨ default CREATE creation_mode
                       = MERGE_ON_ID_IGNORE_ON_MATCH)), self')
    ∧ _parallel_mode self' = false.
Proof.
  intros Hdim Hcols Hid Hin Hlabel Hattrs Hmode Hsrv.
  pose proof (in_list_In _ _ Hin) as Hel.
  assert (attributes ≠ []) as Hne by (intros ->; by apply elem_of_nil in Hel).
  assert (Forall (λ a, no_brace a = true) [id]) as Hidb.
  { constructor; [|done]. by eapply Forall_forall in Hattrs. }
  destruct (create_node_index_commits label attributes self Hne Hlabel Hattrs
              Hmode Hsrv) as (st1 & Hall & Hm1 & _).
  destruct (create_node_index_commits label [id] self ltac:(done) Hlabel Hidb
              Hmode Hsrv) as (st2 & Hone & Hm2 & _).
  change (create_node_index drv label (Iterable [id]))
    with (create_node_index drv label (Str id)) in Hone.
  unfold save_nodes_np_prepare.
  rewrite shape_check_passes by done.
  destruct (String.eqb_spec id "") as [|_]; [done|]. rewrite Hin.
  unfold bind at 1. unfold ret at 1. cbv beta iota.
  unfold bind at 1.
  assert (bool_decide (Some id = None) = false) as -> by done.
  rewrite andb_false_r. unfold ret at 1. cbv beta iota.
  destruct (default CREATE creation_mode) eqn:Hcm.
  all: rewrite ?bool_decide_eq_true_2 by done;
    rewrite ?bool_decide_eq_false_2 by done; cbn [negb];
    unfold bind, ret, modify; rewrite ?Hall, ?Hone; cbv beta iota;
    rewrite ?Hone; destruct (truthy (Some c)); eexists; (split; [reflexivity|]);
    by setters.
Qed.

End array_path.

(** C6, as the specification states it: on the table path a bulk create
    under Create with a custom statement is not dispatched to the parallel
    path. *)
Lemma create_with_custom_statement_sequential :
  save_nodes_df_prepare drv_ok df3 "P" None (Some CREATE) None
    (Some "CREATE (n)") new_connector
  = (Return ("CREATE (n)", false), warn nodes_df_warning new_connector).
Proof. reflexivity. Qed.

(** C6, amended.  On the table path the batches go to the parallel path
    exactly when no custom statement is given and the creation mode is
    Create or merge-ignore; on the array path, for a call that gets as far
    as dispatching its batches, exactly when the creation mode is Create
    or merge-ignore.  On both paths the batches of merge-update and of
    merge on all attributes run on the sequential path.  There are such
    calls on the array path under every creation mode: with a statement of
    the caller, an array of the right shape, a primary key among the
    attributes, the connector in sequential mode and a database that
    commits every transaction, the call dispatches its batches. *)
Theorem node_parallel_eligibility (drv : Driver) (df : DataFrame)
    (array : ndarray) (attributes : list string) (label : string)
    (id_ : option string) (batch_size : Z)
    (creation_mode : option NodeCreationMode.t)
    (df_key_to_attr_map : option (gmap string string))
    (cypher : option string) (self : Connector) :
  (∀ cypher_ parallel self',
     save_nodes_df_prepare drv df label id_ creation_mode df_key_to_attr_map
       cypher self = (Return (cypher_, parallel), self') →
     (parallel = true ↔
        cypher = None
        ∧ (default CREATE creation_mode = CREATE
           ∨ default CREATE creation_mode = MERGE_ON_ID_IGNORE_ON_MATCH))
     ∧ save_nodes_df drv df label id_ batch_size creation_mode
         df_key_to_attr_map cypher self
       = (if parallel
          then parallel_batches drv (df_rows df) cypher_ batch_size
          else sequential_batches drv (df_rows df) cypher_ batch_size) self')
  ∧ (∀ cypher_ parallel self',
       save_nodes_np_prepare drv array attributes label id_ creation_mode
         cypher self = (Return (cypher_, parallel), self') →
       (parallel = true ↔
          default CREATE creation_mode = CREATE
          ∨ default CREATE creation_mode = MERGE_ON_ID_IGNORE_ON_MATCH)
       ∧ save_nodes_np drv array attributes label id_ batch_size
           creation_mode cypher self
         = (if parallel
            then parallel_batches drv (array_rows array) cypher_ batch_size
            else sequential_batches drv (array_rows array) cypher_ batch_size)
             self')
  ∧ (∀ id c,
       2 ≤ length (shape array) →
       shape array !! 1 = Some (length attributes) →
       id ≠ "" →
       in_list id attributes = true →
       no_brace label = true →
       Forall (λ a, no_brace a = true) attributes →
       _parallel_mode self = false →
       (∀ log, returned (run_tx drv log) = true) →
       ∃ self',
         save_nodes_np_prepare drv array attributes label (Some id)
           creation_mode (Some c) self
         = (Return (c, bool_decide
                         (default CREATE creation_mode = CREATE
                          ∨ default CREATE creation_mode
                            = MERGE_ON_ID_IGNORE_ON_MATCH)), self')
         ∧ save_nodes_np drv array attributes label (Some id) batch_size
             creation_mode (Some c) self
           = (if bool_decide
                   (default CREATE creation_mode = CREATE
                    ∨ default CREATE creation_mode
                      = MERGE_ON_ID_IGNORE_ON_MATCH)
              then parallel_batches drv (array_rows array) c batch_size
              else sequential_batches drv (array_rows array) c batch_size)
               self').
Proof.
  split; [|split].
  - intros cypher_ parallel self' H. split.
    + rewrite (save_nodes_df_flag _ _ _ _ _ _ _ _ _ _ _ H).
      rewrite andb_true_iff, !bool_decide_eq_true. tauto.
    + unfold save_nodes_df, bind. by rewrite H.
  - intros cypher_ parallel self' H. split.
    + destruct (save_nodes_np_flag _ _ _ _ _ _ _ _ _ _ _ H) as (-> & _).
      by rewrite bool_decide_eq_true.
    + unfold save_nodes_np, bind. by rewrite H.
  - intros id c Hdim Hcols Hid Hin Hlabel Hattrs Hmode Hsrv.
    destruct (save_nodes_np_prepare_returns drv array attributes label id
                creation_mode c self Hdim Hcols Hid Hin Hlabel Hattrs Hmode
                Hsrv) as (self' & H & _).
    exists self'. split; [done|].
    unfold save_nodes_np, bind. by rewrite H.
Qed.

Lemma node_parallel_eligibility_witness :
  save_nodes_df drv_ok df3 "P" None 2 (Some CREATE) None None new_connector
  = parallel_batches drv_ok (df_rows df3)
      rendered_nodes_statement 2 new_connector
  ∧ save_nodes_np drv_ok array3 ["a"; "b"; "w"] "P" None 2
      (Some CREATE) (Some "CREATE (n)") new_connector
    = parallel_batches drv_ok (array_rows array3) "CREATE (n)" 2
        (warn nodes_np_warning new_connector)
  ∧ ∃ self',
      save_nodes_np drv_ok array3 ["a"; "b"; "w"] "P" (Some "a") 2
        (Some MERGE_ON_ID_SET_ATTR_ON_MATCH) (Some "CREATE (n)") new_connector
      = sequential_batches drv_ok (array_rows array3) "CREATE (n)" 2 self'.
Proof.
  split; [|split].
  - apply (proj1 (node_parallel_eligibility drv_ok df3 array3 ["a"; "b"; "w"]
                    "P" None 2 (Some CREATE) None None new_connector)
             rendered_nodes_statement true new_connector eq_refl).
  - apply (proj1 (proj2 (node_parallel_eligibility drv_ok df3 array3
                           ["a"; "b"; "w"] "P" None 2 (Some CREATE) None
                           (Some "CREATE (n)") new_connector))
             "CREATE (n)" true (warn nodes_np_warning new_connector) eq_refl).
  - destruct (proj2 (proj2 (node_parallel_eligibility drv_ok df3 array3
                              ["a"; "b"; "w"] "P" None 2
                              (Some MERGE_ON_ID_SET_ATTR_ON_MATCH) None None
                              new_connector))
                "a" "CREATE (n)") as (self' & _ & Hrun).
    + cbn. lia.
    + reflexivity.
    + discriminate.
    + reflexivity.
    + reflexivity.
    + repeat constructor.
    + reflexivity.
    + intros log. reflexivity.
    + exists self'. exact Hrun.
Defined.

(** C9, as the specification states it: on the array path a custom
    statement with the creation mode merge-ignore and no primary key
    fails with the usage error, and no warning has been emitted. *)
Lemma array_custom_statement_fails_hard :
  save_nodes_np drv_ok array3 ["a"; "b"; "w"] "P" None 2
    (Some MERGE_ON_ID_IGNORE_ON_MATCH) (Some "CREATE (n)") new_connector
  = (Raise (ValueError id_needed_msg), new_connector)
  ∧ warnings new_connector = [].
Proof. split; reflexivity. Qed.

(** C9, amended.  On the table path a call with a custom statement and a
    creation mode [m] is the same computation as that call with Create:
    the supplied mode is overridden.  It dispatches the custom statement
    on the sequential path, and with no primary key, a batch size other
    than zero, the connector in sequential mode and a database that
    commits every transaction it returns, having emitted the warning and
    nothing else; no index is asked for, also under merge on all
    attributes.  On the array path the supplied mode is kept.  It decides
    the execution path, and the warning comes once the checks have passed.
    It decides index creation: under merge on all attributes the call
    first writes the index over all attributes, under Create with no
    primary key it writes none.  And each of the two modes that merge on
    the primary key, given no primary key, raises a usage error and leaves
    the connector as it was. *)
Theorem custom_statement_with_mode (drv : Driver) (df : DataFrame)
    (array : ndarray) (attributes : list string) (label : string)
    (id_ : option string) (batch_size : Z) (m : NodeCreationMode.t)
    (df_key_to_attr_map : option (gmap string string)) (cypher : string)
    (self : Connector) :
  save_nodes_df drv df label id_ batch_size (Some m) df_key_to_attr_map
    (Some cypher) self
  = save_nodes_df drv df label id_ batch_size (Some CREATE) df_key_to_attr_map
      (Some cypher) self
  ∧ (∀ cypher_ parallel self',
       save_nodes_df_prepare drv df label id_ (Some m) df_key_to_attr_map
         (Some cypher) self = (Return (cypher_, parallel), self') →
       cypher_ = cypher ∧ parallel = false)
  ∧ (batch_size ≠ 0%Z →
     _parallel_mode self = false →
     (∀ log, returned (run_tx drv log) = true) →
     (save_nodes_df drv df label None batch_size (Some m) df_key_to_attr_map
        (Some cypher) self).1 = Return ()
     ∧ warnings
         (save_nodes_df drv df label None batch_size (Some m)
            df_key_to_attr_map (Some cypher) self).2
       = warnings self ++ [nodes_df_warning])
  ∧ save_nodes_df_prepare drv df label None (Some m) df_key_to_attr_map
      (Some cypher) self
    = (Return (cypher, false), warn nodes_df_warning self)
  ∧ (∀ cypher_ parallel self',
       save_nodes_np_prepare drv array attributes label id_ (Some m)
         (Some cypher) self = (Return (cypher_, parallel), self') →
       cypher_ = cypher
       ∧ parallel
         = bool_decide (m = CREATE ∨ m = MERGE_ON_ID_IGNORE_ON_MATCH)
       ∧ (cypher ≠ "" → ∃ ws, warnings self' = ws ++ [nodes_np_warning]))
  ∧ (2 ≤ length (shape array) →
     shape array !! 1 = Some (length attributes) →
     cypher ≠ "" →
     save_nodes_np_prepare drv array attributes label None (Some CREATE)
       (Some cypher) self
     = (Return (cypher, true), warn nodes_np_warning self)
     ∧ (attributes ≠ [] →
        no_brace label = true →
        Forall (λ a, no_brace a = true) attributes →
        _parallel_mode self = false →
        (∀ log, returned (run_tx drv log) = true) →
        ∃ self',
          save_nodes_np_prepare drv array attributes label None
            (Some MERGE_ON_ALL_ATTRIBUTES) (Some cypher) self
          = (Return (cypher, false), self')
          ∧ driver_log self'
            = driver_log self
              ++ session_block None (current_bookmarks self None)
                   (index_query label attributes)
                   (last_bookmark drv
                      (request self None WRITE
                         (node_index_statement label attributes) None))
          ∧ warnings self' = warnings self ++ [nodes_np_warning]))
  ∧ (∀ merge_mode,
       merge_mode = MERGE_ON_ID_IGNORE_ON_MATCH
       ∨ merge_mode = MERGE_ON_ID_SET_ATTR_ON_MATCH →
       (∃ msg,
          save_nodes_np drv array attributes label None batch_size
            (Some merge_mode) (Some cypher) self
          = (Raise (ValueError msg), self))
       ∧ (2 ≤ length (shape array) →
          shape array !! 1 = Some (length attributes) →
          save_nodes_np drv array attributes label None batch_size
            (Some merge_mode) (Some cypher) self
          = (Raise (ValueError id_needed_msg), self))).
Proof.
  split; [reflexivity|]. split; [|split; [|split; [|split; [|split]]]].
  - intros cypher_ parallel self' H.
    pose proof (save_nodes_df_flag _ _ _ _ _ _ _ _ _ _ _ H) as ->.
    split; [|by rewrite andb_false_r].
    unfold save_nodes_df_prepare in H. do 5 inv_bind H.
    injection H as <- _ _. by injection Hstep3 as <- _.
  - intros Hb Hmode Hsrv.
    assert (save_nodes_df drv df label None batch_size (Some m)
              df_key_to_attr_map (Some cypher) self
            = sequential_batches drv (df_rows df) cypher batch_size
                (warn nodes_df_warning self)) as -> by reflexivity.
    by apply sequential_batches_returns.
  - reflexivity.
  - intros cypher_ parallel self' H.
    destruct (save_nodes_np_flag _ _ _ _ _ _ _ _ _ _ _ H)
      as (Hpar & Hcy & Hwarn).
    split; [by injection Hcy|]. split; [done|].
    intros Hne. apply Hwarn. cbn [truthy].
    by destruct (String.eqb_spec cypher "").
  - intros Hdim Hcols Hcy.
    assert (truthy (Some cypher) = true) as Htruthy.
    { cbn [truthy]. by destruct (String.eqb_spec cypher ""). }
    split.
    + unfold save_nodes_np_prepare.
      rewrite shape_check_passes, Htruthy by done. reflexivity.
    + intros Hne Hlabel Hattrs Hmode Hsrv.
      destruct (create_node_index_commits drv label attributes self Hne Hlabel
                  Hattrs Hmode Hsrv) as (st & Hall & _ & Hw & Hlog).
      exists (warn nodes_np_warning st).
      split; [|split; [exact Hlog | by setters; rewrite Hw]].
      unfold save_nodes_np_prepare.
      rewrite shape_check_passes, Htruthy by done.
      change (default CREATE (Some MERGE_ON_ALL_ATTRIBUTES))
        with MERGE_ON_ALL_ATTRIBUTES.
      change (py_in (NodeMode MERGE_ON_ALL_ATTRIBUTES)
                [NodeMode MERGE_ON_ID_IGNORE_ON_MATCH;
                 NodeMode MERGE_ON_ID_SET_ATTR_ON_MATCH]) with false.
      rewrite !bool_decide_eq_true_2 by done.
      unfold bind, ret, modify. cbn [andb]. cbv beta iota.
      rewrite Hall. reflexivity.
  - intros merge_mode Hmerge. split.
    + unfold save_nodes_np, save_nodes_np_prepare, bind, raise, lift.
      rewrite shape_msg_built.
      destruct Hmerge as [-> | ->]; destruct (_ || _); by eexists.
    + intros Hdim Hcols. unfold save_nodes_np, save_nodes_np_prepare.
      rewrite shape_check_passes by done.
      by destruct Hmerge as [-> | ->].
Qed.

Lemma custom_statement_with_mode_witness :
  ((save_nodes_df drv_ok df3 "P" None 2 (Some MERGE_ON_ALL_ATTRIBUTES) None
      (Some "CREATE (n)") new_connector).1 = Return ()
   ∧ warnings
       (save_nodes_df drv_ok df3 "P" None 2 (Some MERGE_ON_ALL_ATTRIBUTES) None
          (Some "CREATE (n)") new_connector).2
     = [nodes_df_warning])
  ∧ (∃ self',
       save_nodes_np_prepare drv_ok array3 ["a"; "b"; "w"] "P" None
         (Some MERGE_ON_ALL_ATTRIBUTES) (Some "CREATE (n)") new_connector
       = (Return ("CREATE (n)", false), self')
       ∧ driver_log self'
         = session_block None [] (index_query "P" ["a"; "b"; "w"]) "bm2"
       ∧ warnings self' = [nodes_np_warning])
  ∧ save_nodes_np drv_ok array3 ["a"; "b"; "w"] "P" None 2
      (Some MERGE_ON_ID_SET_ATTR_ON_MATCH) (Some "CREATE (n)") new_connector
    = (Raise (ValueError id_needed_msg), new_connector)
  ∧ bool_decide (MERGE_ON_ID_SET_ATTR_ON_MATCH = CREATE
                 ∨ MERGE_ON_ID_SET_ATTR_ON_MATCH = MERGE_ON_ID_IGNORE_ON_MATCH)
    = false.
Proof.
  pose proof (custom_statement_with_mode drv_ok df3 array3 ["a"; "b"; "w"] "P"
                None 2 MERGE_ON_ALL_ATTRIBUTES None "CREATE (n)" new_connector)
    as (_ & _ & Hdf & _ & _ & Hidx & Hmerge).
  pose proof (custom_statement_with_mode drv_ok df3 array3 ["a"; "b"; "w"] "P"
                (Some "a") 2 MERGE_ON_ID_SET_ATTR_ON_MATCH None "CREATE (n)"
                new_connector)
    as (_ & _ & _ & _ & Hnp & _).
  split; [|split; [|split]].
  - apply Hdf.
    + discriminate.
    + reflexivity.
    + intros log. reflexivity.
  - destruct Hidx as [_ Hall].
    + cbn. lia.
    + reflexivity.
    + discriminate.
    + apply Hall.
      * discriminate.
      * reflexivity.
      * repeat constructor.
      * reflexivity.
      * intros log. reflexivity.
  - destruct (Hmerge MERGE_ON_ID_SET_ATTR_ON_MATCH) as [_ Hmsg].
    + right. reflexivity.
    + apply Hmsg; [cbn; lia | reflexivity].
  - destruct (Hnp "CREATE (n)"
                (bool_decide (MERGE_ON_ID_SET_ATTR_ON_MATCH = CREATE
                              ∨ MERGE_ON_ID_SET_ATTR_ON_MATCH
                                = MERGE_ON_ID_IGNORE_ON_MATCH))
                (save_nodes_np_prepare drv_ok array3 ["a"; "b"; "w"] "P"
                   (Some "a") (Some MERGE_ON_ID_SET_ATTR_ON_MATCH)
                   (Some "CREATE (n)") new_connector).2)
      as (_ & Hpar & _).
    + reflexivity.
    + reflexivity.
Defined.

(** * The statement for edges *)

Lemma node_pattern_named labels match_keys row_attr_map name :
  Cypher.node_pattern (Some labels)
    (Cypher.inline_attributes match_keys (Some row_attr_map) "row") name
  = "(" +:+ name +:+ label_list labels
    +:+ match_clause match_keys row_attr_map +:+ ")".
Proof. by destruct match_keys. Qed.

Lemma rel_pattern_shape rel_labels rel_attributes row_attr_map :
  Cypher.rel_pattern (Cypher.node_pattern None "" "src")
    (Cypher.node_pattern None "" "dst") (Some rel_labels)
    (Cypher.inline_attributes rel_attributes (Some row_attr_map) "row")
    "r" true
  = "(src)-[r" +:+ label_list rel_labels
    +:+ rel_match_clause rel_attributes row_attr_map +:+ "]->(dst)".
Proof.
  unfold Cypher.rel_pattern, rel_match_clause, match_clause.
  destruct rel_attributes as [|k ks].
  - cbn [Cypher.inline_attributes]. change (Cypher.node_pattern None "" "src") with "(src)".
    change (Cypher.node_pattern None "" "dst") with "(dst)".
    unfold label_list. cbn [default]. by norm_append.
  - change (Cypher.node_pattern None "" "src") with "(src)".
    change (Cypher.node_pattern None "" "dst") with "(dst)".
    unfold label_list, Cypher.inline_attributes, attr_pair. cbn [default].
    by norm_append.
Qed.

Lemma endpoint_statement m pattern :
  match m with
  | RelNodeCreationMode.MERGE => "MERGE " +:+ pattern +:+ nl
  | RelNodeCreationMode.MATCH => "MATCH " +:+ pattern +:+ nl
  | RelNodeCreationMode.CREATE => "CREATE " +:+ pattern +:+ nl
  end = endpoint_verb m +:+ " " +:+ pattern +:+ nl.
Proof. by destruct m. Qed.

Lemma rel_statement m pattern :
  match m with
  | RelCreationMode.CREATE => "CREATE " +:+ pattern
  | RelCreationMode.MERGE => "MERGE " +:+ pattern
  end = rel_verb m +:+ " " +:+ pattern.
Proof. by destruct m. Qed.

(** X4. [rels_from_rows] raises an assertion error exactly when a source,
    destination or edge attribute is not among the declared attributes.
    Otherwise it returns the statement whose source and destination lines
    carry the verb of their endpoint mode (MERGE, MATCH, CREATE) and match
    on their attributes, and whose last line carries the verb of the edge
    mode and the edge attributes, between [(src)] and [(dst)]. *)
Theorem rels_from_rows_statement
    (src_attributes dst_attributes rel_attributes all_attributes : list string)
    (src_labels dst_labels rel_labels : list string)
    (src_creation_mode dst_creation_mode : RelNodeCreationMode.t)
    (rel_creation_mode : RelCreationMode.t)
    (row_attr_map : gmap string string) :
  Cypher.rels_from_rows src_attributes dst_attributes rel_attributes
    all_attributes src_labels dst_labels rel_labels
    src_creation_mode dst_creation_mode rel_creation_mode row_attr_map
  = if Cypher.all_in src_attributes all_attributes
       && Cypher.all_in dst_attributes all_attributes
       && Cypher.all_in rel_attributes all_attributes
    then Return (edge_statement src_attributes dst_attributes rel_attributes
                   all_attributes src_labels dst_labels rel_labels
                   src_creation_mode dst_creation_mode rel_creation_mode
                   row_attr_map)
    else Raise AssertionError.
Proof.
  unfold Cypher.rels_from_rows.
  destruct (Cypher.all_in src_attributes all_attributes); [|done].
  destruct (Cypher.all_in dst_attributes all_attributes); [|done].
  destruct (Cypher.all_in rel_attributes all_attributes); [|done].
  cbn [negb andb]. rewrite row_as_dict_row.
  unfold mbind, mret, Exc_bind, Exc_ret.
  rewrite !endpoint_statement, rel_statement.
  rewrite !node_pattern_named, rel_pattern_shape.
  unfold edge_statement, with_clause. f_equal. by norm_append.
Qed.

Lemma row_as_dict_any_keys_witness :
  Cypher.row_as_dict ["a{b"; "c`d"] "r" "out" (Some [7; 8; 9]%Z)
  = Return ("{" +:+ String.concat ", "
                      (map (index_pair_in "r")
                         (attr_idx_iter ["a{b"; "c`d"] (Some [7; 8; 9]%Z)))
            +:+ "} AS " +:+ escape "out").
Proof.
  apply (row_as_dict_any_keys ["a{b"; "c`d"] "r" "out" (Some [7; 8; 9]%Z)).
  reflexivity.
Defined.

Lemma index_ignores_attribute_order_witness :
  create_node_index drv_ok "P" (Iterable ["b"; "a"])
  = create_node_index drv_ok "P" (Iterable ["a"; "b"]).
Proof.
  apply (index_ignores_attribute_order drv_ok "P" ["b"; "a"] ["a"; "b"]).
  apply Permutation_swap.
Defined.

Lemma create_index_statement_witness :
  create_node_index drv_ok "my_label" (Iterable ["y"; "x_1"]) new_connector
  = (write_query drv_ok (node_index_statement "my_label" ["y"; "x_1"])
       None None ;;
     ret (node_index_name "my_label" ["y"; "x_1"])) new_connector.
Proof.
  apply (create_index_statement drv_ok "my_label" ["y"; "x_1"] new_connector).
  - discriminate.
  - reflexivity.
  - repeat constructor.
Defined.


(** * Parallel sessions inside a scope *)

Section parallel.
Variable drv : Driver.

Lemma job_commits j self res :
  _parallel_mode self = true →
  run_tx drv (request self (job_database j) (job_access j) (job_cypher j)
                (job_params j)) = Return res →
  job drv j self
  = (Return res,
     {| _bookmarks := (defaultdict_getitem (job_database j) (_bookmarks self)).2;
        _parallel_bookmarks :=
          <[job_database j :=
              default [] (_parallel_bookmarks self !! job_database j)
              ++ [last_bookmark drv
                    (request self (job_database j) (job_access j)
                       (job_cypher j) (job_params j))]]>
            (_parallel_bookmarks self);
        _parallel_mode := true;
        _futures := _futures self;
        pool := pool self;
        driver_log :=
          driver_log self
          ++ session_block (job_database j)
               (current_bookmarks self (job_database j)) (job_query j)
               (last_bookmark drv
                  (request self (job_database j) (job_access j)
                     (job_cypher j) (job_params j)));
        warnings := warnings self |}).
Proof.
  intros Hmode Hrun. unfold request, job in *.
  unfold _get_parallel_session, current_bookmarks in *. rewrite Hmode.
  cbn [negb].
  destruct (defaultdict_getitem (job_database j) (_bookmarks self))
    as [bookmarks d] eqn:Hget.
  cbn [fst snd] in *. unfold _query. setters.
  rewrite <- !(assoc_L (++)). cbn [app]. rewrite Hrun.
  unfold session_block, job_query. setters.
  cbn [q_access q_cypher q_params].
  unfold defaultdict_getitem at 1.
  destruct (_parallel_bookmarks self !! job_database j) as [pending|] eqn:Hp;
    setters; rewrite Hmode; do 2 f_equal.
  by rewrite insert_insert_eq.
Qed.

Lemma job_raises j self e :
  _parallel_mode self = true →
  run_tx drv (request self (job_database j) (job_access j) (job_cypher j)
                (job_params j)) = Raise e →
  job drv j self
  = (Raise e,
     {| _bookmarks := (defaultdict_getitem (job_database j) (_bookmarks self)).2;
        _parallel_bookmarks := _parallel_bookmarks self;
        _parallel_mode := true;
        _futures := _futures self;
        pool := pool self;
        driver_log :=
          request self (job_database j) (job_access j) (job_cypher j)
            (job_params j) ++ [SessionClose];
        warnings := warnings self |}).
Proof.
  intros Hmode Hrun. unfold request, job in *.
  unfold _get_parallel_session, current_bookmarks in *. rewrite Hmode.
  cbn [negb].
  destruct (defaultdict_getitem (job_database j) (_bookmarks self))
    as [bookmarks d] eqn:Hget.
  cbn [fst snd] in *. unfold _query. setters.
  rewrite <- !(assoc_L (++)). cbn [app]. rewrite Hrun.
  setters. by rewrite Hmode.
Qed.

(** X7. A parallel job that runs inside a scope opens its session with
    the bookmarks its database currently has and leaves them as they are.
    When the transaction commits, the token of the session is appended to
    the pending tokens of that database and no other database is touched;
    when it raises, nothing is pending that was not before. *)
Theorem parallel_job_effect (j : Job) (self : Connector) :
  _parallel_mode self = true →
  match run_tx drv (request self (job_database j) (job_access j)
                      (job_cypher j) (job_params j)) with
  | Return res =>
      (job drv j self).1 = Return res
      ∧ driver_log (job drv j self).2
        = driver_log self
          ++ session_block (job_database j)
               (current_bookmarks self (job_database j)) (job_query j)
               (last_bookmark drv
                  (request self (job_database j) (job_access j)
                     (job_cypher j) (job_params j)))
      ∧ default [] (_parallel_bookmarks (job drv j self).2 !! job_database j)
        = default [] (_parallel_bookmarks self !! job_database j)
          ++ [last_bookmark drv
                (request self (job_database j) (job_access j)
                   (job_cypher j) (job_params j))]
      ∧ (∀ d, d ≠ job_database j →
           _parallel_bookmarks (job drv j self).2 !! d
           = _parallel_bookmarks self !! d)
      ∧ (∀ d, current_bookmarks (job drv j self).2 d
              = current_bookmarks self d)
  | Raise e =>
      (job drv j self).1 = Raise e
      ∧ driver_log (job drv j self).2
        = request self (job_database j) (job_access j) (job_cypher j)
            (job_params j) ++ [SessionClose]
      ∧ _parallel_bookmarks (job drv j self).2 = _parallel_bookmarks self
      ∧ (∀ d, current_bookmarks (job drv j self).2 d
              = current_bookmarks self d)
  end.
Proof.
  intros Hmode.
  destruct (run_tx drv _) as [res|e] eqn:Hrun.
  - rewrite (job_commits j self res Hmode Hrun).
    cbn [fst snd driver_log _parallel_bookmarks].
    split; [done|]. split; [done|]. split; [by rewrite lookup_insert_eq|].
    split.
    + intros d Hd. by rewrite lookup_insert_ne.
    + intros d. rewrite !current_bookmarks_lookup. cbn [_bookmarks].
      apply getitem_snd_lookup.
  - rewrite (job_raises j self e Hmode Hrun).
    cbn [fst snd driver_log _parallel_bookmarks].
    repeat split. intros d.
    rewrite !current_bookmarks_lookup. cbn [_bookmarks].
    apply getitem_snd_lookup.
Qed.


Lemma parallel_trace_snoc db seed qs : ∀ toks q t,
  length qs = length toks →
  parallel_trace db seed (qs ++ [q]) (toks ++ [t])
  = parallel_trace db seed qs toks ++ session_block db seed q t.
Proof.
  induction qs as [|q0 qs IH]; intros [|t0 toks] q t Hlen;
    cbn in Hlen; try lia.
  - done.
  - cbn [app parallel_trace]. rewrite IH by lia.
    by rewrite <- (assoc_L (++)).
Qed.

Lemma finished_queries_insert fs : ∀ k f f',
  fs !! k = Some f →
  finished f = false → finished f' = true → fut_job f' = fut_job f →
  finished_queries (<[k := f']> fs)
  ≡ₚ job_query (fut_job f) :: finished_queries fs.
Proof.
  unfold finished_queries.
  induction fs as [|f0 fs IH]; intros k f f' Hk Hf Hf' Hjob; [done|].
  destruct k as [|k].
  - injection Hk as ->. cbn [insert list_insert].
    rewrite filter_cons_True by done.
    rewrite (filter_cons_False _ f) by by rewrite Hf.
    cbn [map]. by rewrite Hjob.
  - cbn [insert list_insert]. cbn in Hk.
    destruct (decide (finished f0 = true)) as [H0|H0].
    + rewrite !filter_cons_True by done. cbn [map].
      rewrite (IH k f f') by done. apply Permutation_swap.
    + rewrite !filter_cons_False by done. by apply IH.
Qed.

Lemma finished_queries_all fs :
  Forall (λ f, finished f = true) fs →
  finished_queries fs = map job_query (map fut_job fs).
Proof.
  unfold finished_queries. induction 1 as [|f fs Hf Hfs IH]; [done|].
  rewrite filter_cons_True by done. cbn [map]. by rewrite IH.
Qed.

Section scope.
Variables (base : Connector) (pre : list Future) (jobs : list Job).
Hypothesis Hsrv : ∀ log, returned (run_tx drv log) = true.
Hypothesis Hpre : Forall (λ f, finished f = true) pre.
Hypothesis Hjobs : Forall (λ j, job_database j = None) jobs.

Lemma worker_run_inv i st :
  scope_inv base pre jobs st → scope_inv base pre jobs (worker_run drv i st).
Proof.
  intros [Hmode Hfut Hwarn Hbm Hpend (fs & qs & toks & Hpool & Hfs & Hok
                                       & Hlen & Hlog & Hperm & Hnone)].
  unfold worker_run.
  destruct (pool st !! i) as [[j [r|]]|] eqn:Hi;
    [by constructor; eauto 10| |by constructor; eauto 10].
  assert (length pre ≤ i) as Hge.
  { destruct (decide (length pre ≤ i)); [done|].
    rewrite Hpool, lookup_app_l in Hi by lia.
    eapply Forall_lookup_1 in Hpre; [|exact Hi]. done. }
  rewrite Hpool, lookup_app_r in Hi by done.
  assert (job_database j = None) as Hdb.
  { assert (jobs !! (i - length pre) = Some j) as Hj.
    { rewrite <- Hfs. change (map fut_job fs) with (fut_job <$> fs).
      by rewrite list_lookup_fmap, Hi. }
    by eapply Forall_lookup_1 in Hjobs; [|exact Hj]. }
  destruct (run_tx drv (request st (job_database j) (job_access j)
                          (job_cypher j) (job_params j)))
    as [res|e] eqn:Hrun;
    [|by specialize (Hsrv (request st (job_database j) (job_access j)
                             (job_cypher j) (job_params j)));
         rewrite Hrun in Hsrv].
  rewrite (job_commits j st res Hmode Hrun). rewrite Hdb in *.
  set (bm := last_bookmark drv _).
  constructor; setters; try done.
  - intros d. rewrite <- Hbm, !current_bookmarks_lookup. cbn [_bookmarks].
    apply getitem_snd_lookup.
  - intros d Hd. rewrite lookup_insert_ne by done. by apply Hpend.
  - exists (<[i - length pre := {| fut_job := j;
                                    fut_outcome := Some (Return res) |}]> fs),
      (qs ++ [job_query j]), (toks ++ [bm]).
    split; [|split; [|split; [|split; [|split; [|split]]]]].
    + rewrite Hpool. by rewrite insert_app_r_alt.
    + rewrite <- Hfs. change (map fut_job ?l) with (fut_job <$> l).
      rewrite list_fmap_insert. apply list_insert_id.
      by rewrite list_lookup_fmap, Hi.
    + apply Forall_insert; [done|]. right. by eexists.
    + rewrite !length_app. cbn. lia.
    + rewrite Hlog, Hbm, <- (assoc_L (++)). f_equal.
      by rewrite parallel_trace_snoc.
    + rewrite (finished_queries_insert fs _ _ _ Hi) by done.
      cbn [fut_job]. rewrite <- Hperm. by rewrite Permutation_app_comm.
    + rewrite lookup_insert_eq. cbn [default]. rewrite Hnone.
      by rewrite <- (assoc_L (++)).
Qed.

Lemma run_workers_inv order : ∀ st,
  scope_inv base pre jobs st → scope_inv base pre jobs (run_workers drv order st).
Proof.
  unfold run_workers.
  induction order as [|i order IH]; intros st Hinv; [done|].
  cbn [foldl]. apply IH. by apply worker_run_inv.
Qed.


Lemma job_keeps_pool j self : pool (job drv j self).2 = pool self.
Proof.
  unfold job, _get_parallel_session.
  destruct (_parallel_mode self); [|done]. cbn [negb].
  destruct (defaultdict_getitem (job_database j) (_bookmarks self))
    as [bookmarks d].
  unfold _query. setters.
  destruct (run_tx drv _) as [res|e]; [|by setters].
  destruct (defaultdict_getitem (job_database j) (_parallel_bookmarks self))
    as [pending d'].
  by setters.
Qed.

Lemma worker_run_finishes i st f :
  pool st !! i = Some f → finished_at (worker_run drv i st) i.
Proof.
  intros Hi. unfold worker_run, finished_at. rewrite Hi.
  destruct f as [j [r|]]; [by eexists|].
  pose proof (job_keeps_pool j st) as Hpool.
  destruct (job drv j st) as [r st']. setters. cbn [snd] in Hpool.
  exists {| fut_job := j; fut_outcome := Some r |}. split; [|done].
  rewrite Hpool. apply list_lookup_insert_eq. by eapply lookup_lt_Some.
Qed.

Lemma worker_run_finished_mono k st i :
  finished_at st i → finished_at (worker_run drv k st) i.
Proof.
  intros (f & Hi & Hf). unfold worker_run.
  destruct (pool st !! k) as [[j [r|]]|] eqn:Hk; [by exists f| |by exists f].
  pose proof (job_keeps_pool j st) as Hpool.
  destruct (job drv j st) as [r st']. cbn [snd] in Hpool.
  unfold finished_at. setters. rewrite Hpool.
  destruct (decide (k = i)) as [->|Hne].
  - exists {| fut_job := j; fut_outcome := Some r |}. split; [|done].
    apply list_lookup_insert_eq. by eapply lookup_lt_Some.
  - exists f. by rewrite list_lookup_insert_ne.
Qed.

Lemma await_inv (ids : list nat) : ∀ st,
  Forall (λ i, length pre ≤ i < length pre + length jobs) ids →
  scope_inv base pre jobs st →
  (for_each ids (future_result drv) st).1 = Return ()
  ∧ scope_inv base pre jobs (for_each ids (future_result drv) st).2
  ∧ Forall (finished_at (for_each ids (future_result drv) st).2) ids
  ∧ (∀ i, finished_at st i →
          finished_at (for_each ids (future_result drv) st).2 i).
Proof.
  induction ids as [|i ids IH]; intros st Hids Hinv.
  { cbn [for_each]. split; [done|]. split; [done|]. split; [constructor|done]. }
  apply Forall_cons in Hids as [Hi Hids].
  pose proof (worker_run_inv i st Hinv) as Hinv'.
  assert (∃ f, pool st !! i = Some f) as [f Hf].
  { destruct Hinv as [_ _ _ _ _ (fs & qs & toks & Hpool & Hfs & _)].
    apply lookup_lt_is_Some. rewrite Hpool, length_app.
    rewrite <- Hfs, length_map in Hi. lia. }
  pose proof (worker_run_finishes i st f Hf) as Hfin.
  assert (∃ res, future_result drv i st
                 = (Return res, worker_run drv i st)) as [res Hres].
  { unfold future_result. destruct Hfin as (f' & Hf' & Hfin').
    rewrite Hf'. cbn [mbind option_bind].
    destruct Hinv' as [_ _ _ _ _ (fs & qs & toks & Hpool & _ & Hok & _)].
    rewrite Hpool, lookup_app_r in Hf' by lia.
    eapply Forall_lookup_1 in Hok; [|exact Hf'].
    destruct Hok as [Hnone | [res Hsome]].
    - unfold finished in Hfin'. by rewrite Hnone in Hfin'.
    - rewrite Hsome. by eexists. }
  cbn [for_each]. unfold bind. rewrite Hres.
  destruct (IH (worker_run drv i st) Hids Hinv') as (Hret & Hinv'' & Hall & Hmono).
  split; [done|]. split; [done|]. split.
  - constructor; [by apply Hmono|done].
  - intros k Hk. apply Hmono. by apply worker_run_finished_mono.
Qed.

End scope.

Lemma submit_loop cypher (batches : list (list row)) : ∀ self,
  for_each batches (λ rows_list,
    parallel_write_query cypher (Some rows_list) None) self
  = (Return (), submitted (map (write_job cypher) batches) self).
Proof.
  induction batches as [|b bs IH]; intros self.
  - unfold submitted. cbn. rewrite !app_nil_r. by destruct self.
  - cbn [for_each]. unfold bind at 1.
    change (parallel_write_query cypher (Some b) None self)
      with (Return (length (pool self)),
            submitted [write_job cypher b] self).
    cbv beta iota. rewrite IH. f_equal. unfold submitted. setters.
    rewrite length_app. cbn [length map seq].
    rewrite <- !(assoc_L (++)). cbn [app].
    by replace (length (pool self) + 1) with (S (length (pool self))) by lia.
Qed.

Lemma finished_queries_undone jobs :
  finished_queries (map undone jobs) = [].
Proof.
  unfold finished_queries. induction jobs as [|j jobs IH]; [done|].
  cbn [map]. by rewrite filter_cons_False.
Qed.

Lemma submitted_inv jobs self :
  _parallel_mode self = true →
  scope_inv (submitted jobs self) (pool self) jobs (submitted jobs self).
Proof.
  intros Hmode. constructor; try done.
  exists (map undone jobs), [], [].
  split; [done|]. split.
  { rewrite map_map. cbn. by rewrite map_id. }
  split.
  { apply Forall_forall. intros f Hf. left.
    apply list_elem_of_In, in_map_iff in Hf as (j & <- & _). done. }
  split; [done|]. split; [by rewrite app_nil_r|].
  split; [by rewrite finished_queries_undone|by rewrite app_nil_r].
Qed.

End parallel.

Lemma parallel_block_submits rows cypher (batch_size : Z) self :
  (0 < batch_size)%Z →
  parallel_block rows cypher batch_size self
  = (Return (),
     submitted
       (map (write_job cypher)
          (batches_of rows (Z.to_nat batch_size)
             (range_loop (length rows) 0 (length rows) (Z.to_nat batch_size))))
       self).
Proof.
  intros Hb. unfold parallel_block. rewrite range_positive by done.
  unfold bind, lift. rewrite <- submit_loop. unfold batches_of.
  by rewrite for_each_map.
Qed.

Lemma parallel_batches_block drv rows cypher batch_size self :
  parallelism drv
    (parallel_block rows cypher batch_size ;; modify (run_workers drv [])) self
  = parallel_batches drv rows cypher batch_size self.
Proof.
  unfold parallel_batches, parallelism.
  change (do offsets <- lift (range (length rows) batch_size);
          for_each offsets (λ offset,
            parallel_write_query cypher
              (Some (slice rows offset (offset + Z.to_nat batch_size))) None))
    with (parallel_block rows cypher batch_size).
  unfold bind at 1.
  by destruct (parallel_block rows cypher batch_size
                 (set_parallel_mode true self)) as [[[]|e] st].
Qed.


(** * Edge cases of the bulk methods *)

(** X9. Consolidation makes the pending tokens of a database its
    bookmarks when there are any, leaves the bookmarks of every other
    database as they were, and clears all pending tokens; the mode, the
    futures and the driver log are not touched. *)
Theorem consolidation_replaces_pending (self : Connector) :
  (∀ db,
     current_bookmarks (_consolidate_parallel_bookmarks self) db
     = match _parallel_bookmarks self !! db with
       | Some (t :: pending) => t :: pending
       | _ => current_bookmarks self db
       end)
  ∧ _parallel_bookmarks (_consolidate_parallel_bookmarks self) = ∅
  ∧ _parallel_mode (_consolidate_parallel_bookmarks self) = _parallel_mode self
  ∧ _futures (_consolidate_parallel_bookmarks self) = _futures self
  ∧ driver_log (_consolidate_parallel_bookmarks self) = driver_log self.
Proof. split; [apply consolidate_lookup|done]. Qed.

(** X10. With a batch size that is not positive no row is written, on
    either path: with zero the call raises the [ValueError] of [range],
    with a negative batch size it returns as if all rows had been
    written.  The driver is not called and no job is submitted. *)
Theorem batch_size_not_positive (drv : Driver) (df : DataFrame)
    (cypher : string) (batch_size : Z) (parallel : bool) (self : Connector) :
  (batch_size ≤ 0)%Z →
  _futures self = [] →
  (_batch_query_df drv df cypher batch_size parallel self).1
  = (if (batch_size =? 0)%Z then Raise (ValueError zero_step_msg)
     else Return ())
  ∧ driver_log (_batch_query_df drv df cypher batch_size parallel self).2
    = driver_log self
  ∧ pool (_batch_query_df drv df cypher batch_size parallel self).2
    = pool self
  ∧ (parallel = false →
     (_batch_query_df drv df cypher batch_size parallel self).2 = self).
Proof.
  intros Hb Hfut. unfold _batch_query_df.
  destruct parallel.
  - unfold parallel_batches, parallelism, range, _await_futures, bind, lift.
    setters. rewrite Hfut.
    destruct (Z.eqb_spec batch_size 0) as [->|Hne]; [done|].
    by destruct (Z.ltb_spec batch_size 0); [|lia].
  - unfold sequential_batches, range, bind, lift.
    destruct (Z.eqb_spec batch_size 0) as [->|Hne]; [done|].
    by destruct (Z.ltb_spec batch_size 0); [|lia].
Qed.

(** X11. The usage errors of the bulk creation of nodes come before
    anything is sent.  A mode that merges on the primary key, given no
    primary key, raises a [ValueError], on the table path (built
    statement) and on the array path, and leaves the connector as it was.
    A primary key that is not a column of the frame raises a [KeyError]
    and leaves the connector as it was, unless the mode is merge on all
    attributes. *)
Theorem save_nodes_usage_errors (drv : Driver) (df : DataFrame)
    (array : ndarray) (attributes : list string) (label id_ : string)
    (batch_size : Z) (merge_mode m : NodeCreationMode.t)
    (df_key_to_attr_map : option (gmap string string))
    (cypher : option string) (self : Connector) :
  merge_mode = MERGE_ON_ID_IGNORE_ON_MATCH
  ∨ merge_mode = MERGE_ON_ID_SET_ATTR_ON_MATCH →
  id_ ≠ "" →
  in_list id_ (df_keys df) = false →
  m ≠ MERGE_ON_ALL_ATTRIBUTES →
  save_nodes_df drv df label None batch_size (Some merge_mode)
    df_key_to_attr_map None self
  = (Raise (ValueError id_needed_msg), self)
  ∧ (∃ msg,
       save_nodes_np drv array attributes label None batch_size
         (Some merge_mode) cypher self
       = (Raise (ValueError msg), self))
  ∧ save_nodes_df drv df label (Some id_) batch_size (Some m)
      df_key_to_attr_map None self
    = (Raise (KeyError ("Couldn't find id_ field " +:+ id_
                        +:+ " in data frame")), self).
Proof.
  intros Hmerge Hid Hin Hm. split; [|split].
  - by destruct Hmerge as [-> | ->].
  - unfold save_nodes_np, save_nodes_np_prepare, bind, raise.
    destruct Hmerge as [-> | ->]; destruct (_ || _); by eexists.
  - unfold save_nodes_df, save_nodes_df_prepare.
    destruct (String.eqb_spec id_ "") as [|_]; [done|].
    rewrite Hin. by destruct m.
Qed.

(** X12. [save_nodes_np] never returns when it is given no statement of
    its own: it calls [Cypher.nodes_from_rows] with four of its five
    arguments.  For an array of the right shape, no primary key and the
    default mode the call raises a [TypeError] and leaves the connector as
    it was. *)
Theorem save_nodes_np_needs_statement (drv : Driver) (array : ndarray)
    (attributes : list string) (label : string) (id_ : option string)
    (batch_size : Z) (creation_mode : option NodeCreationMode.t)
    (self : Connector) :
  returned (save_nodes_np drv array attributes label id_ batch_size
              creation_mode None self).1 = false
  ∧ (2 ≤ length (shape array) →
     shape array !! 1 = Some (length attributes) →
     ∃ msg,
       save_nodes_np drv array attributes label None batch_size None None self
       = (Raise (TypeError msg), self)).
Proof.
  split.
  - unfold save_nodes_np, bind at 1.
    destruct (save_nodes_np_prepare drv array attributes label id_
                creation_mode None self) as [[[cypher_ parallel]|e] st] eqn:H;
      [|done].
    by apply save_nodes_np_flag in H as (_ & ? & _).
  - intros Hdim Hcols. unfold save_nodes_np, save_nodes_np_prepare, bind.
    destruct (Nat.ltb_spec (length (shape array)) 2); [lia|].
    rewrite Hcols. rewrite bool_decide_eq_true_2 by done. by eexists.
Qed.

Lemma filter_all_endpoint (keys non_rel : list string) :
  Forall (λ a, in_list a non_rel = true) keys →
  filter (λ a, in_list a non_rel = false) keys = [].
Proof.
  induction 1 as [|a keys Ha Hkeys IH]; [done|].
  rewrite filter_cons_False by by rewrite Ha. done.
Qed.

(** X13. [save_rel_df] never returns for a frame all of whose columns
    are endpoint ids or endpoint attributes: the index for the edge
    attributes is asked for an empty attribute list, which the index
    method refuses. *)
Theorem save_rel_df_needs_edge_attribute (drv : Driver) (df : DataFrame)
    (src_label src_id dst_label dst_id : string) (label : option string)
    (batch_size : Z) (src_attributes dst_attributes : option (list string))
    (src_creation_mode dst_creation_mode : option RelNodeCreationMode.t)
    (creation_mode : option RelCreationMode.t)
    (df_key_to_attr_map : option (gmap string string))
    (cypher : option string) (self : Connector) :
  Forall (λ a, in_list a (src_id :: dst_id :: default [] src_attributes
                          ++ default [] dst_attributes) = true)
    (df_keys df) →
  returned (save_rel_df drv df src_label src_id dst_label dst_id label
              batch_size src_attributes dst_attributes src_creation_mode
              dst_creation_mode creation_mode df_key_to_attr_map cypher
              self).1 = false.
Proof.
  intros Hkeys. apply filter_all_endpoint in Hkeys.
  unfold save_rel_df, bind at 1.
  destruct (save_rel_df_prepare drv df src_label src_id dst_label dst_id label
              src_attributes dst_attributes src_creation_mode dst_creation_mode
              creation_mode df_key_to_attr_map cypher self)
    as [[[cypher_ parallel]|e] st] eqn:H; [|done].
  exfalso. unfold save_rel_df_prepare in H. rewrite Hkeys in H.
  destruct label as [label|]; [|done].
  destruct (negb (in_list src_id (df_keys df))); [done|].
  destruct (negb (in_list dst_id (df_keys df))); [done|].
  do 3 inv_bind H. done.
Qed.

(** X14. [save_rel_df] raises a [KeyError] when the source or the
    destination id is not a column of the frame, and a [TypeError] when no
    label is given; in both cases the connector is left as it was. *)
Theorem save_rel_df_rejects_before_sending (drv : Driver) (df : DataFrame)
    (src_label src_id dst_label dst_id label : string)
    (batch_size : Z) (src_attributes dst_attributes : option (list string))
    (src_creation_mode dst_creation_mode : option RelNodeCreationMode.t)
    (creation_mode : option RelCreationMode.t)
    (df_key_to_attr_map : option (gmap string string))
    (cypher : option string) (self : Connector) :
  (in_list src_id (df_keys df) && in_list dst_id (df_keys df) = false →
   ∃ msg,
     save_rel_df drv df src_label src_id dst_label dst_id (Some label)
       batch_size src_attributes dst_attributes src_creation_mode
       dst_creation_mode creation_mode df_key_to_attr_map cypher self
     = (Raise (KeyError msg), self))
  ∧ (∃ msg,
       save_rel_df drv df src_label src_id dst_label dst_id None
         batch_size src_attributes dst_attributes src_creation_mode
         dst_creation_mode creation_mode df_key_to_attr_map cypher self
       = (Raise (TypeError msg), self)).
Proof.
  split; [|by eexists]. intros Hin.
  unfold save_rel_df, save_rel_df_prepare, bind, raise.
  destruct (in_list src_id (df_keys df)); cbn [negb]; [|by eexists].
  cbn [andb] in Hin. rewrite Hin. by eexists.
Qed.

(** * The properties at concrete inputs *)

Lemma parallel_job_effect_witness :
  (job drv_ok (write_job "CREATE (n)" []) parallel_connector).1
  = Return no_rows
  ∧ default []
      (_parallel_bookmarks
         (job drv_ok (write_job "CREATE (n)" []) parallel_connector).2
       !! None)
    = ["bm2"].
Proof.
  destruct (parallel_job_effect drv_ok (write_job "CREATE (n)" [])
              parallel_connector eq_refl) as (Hres & _ & Hpending & _).
  split; [exact Hres | exact Hpending].
Defined.


Lemma batch_size_not_positive_witness :
  (_batch_query_df drv_ok df3 "CREATE (n)" (-5) true new_connector).1
  = Return ()
  ∧ driver_log
      (_batch_query_df drv_ok df3 "CREATE (n)" (-5) true new_connector).2
    = [].
Proof.
  destruct (batch_size_not_positive drv_ok df3 "CREATE (n)" (-5) true
              new_connector) as (Hres & Hlog & _).
  - discriminate.
  - reflexivity.
  - split; [exact Hres | exact Hlog].
Defined.

Lemma save_nodes_usage_errors_witness :
  save_nodes_df drv_ok df3 "P" (Some "id") 2 (Some CREATE) None None
    new_connector
  = (Raise (KeyError "Couldn't find id_ field id in data frame"),
     new_connector).
Proof.
  destruct (save_nodes_usage_errors drv_ok df3 array3 ["a"; "b"; "w"] "P"
              "id" 2 MERGE_ON_ID_IGNORE_ON_MATCH CREATE None None
              new_connector) as (_ & _ & Hkey).
  - left. reflexivity.
  - discriminate.
  - reflexivity.
  - discriminate.
  - exact Hkey.
Defined.

Lemma save_nodes_np_needs_statement_witness :
  ∃ msg,
    save_nodes_np drv_ok array3 ["a"; "b"; "w"] "P" None 2 None None
      new_connector
    = (Raise (TypeError msg), new_connector).
Proof.
  apply (save_nodes_np_needs_statement drv_ok array3 ["a"; "b"; "w"] "P" None
           2 None new_connector).
  - cbn. lia.
  - reflexivity.
Defined.

Lemma save_rel_df_needs_edge_attribute_witness :
  returned (save_rel_df drv_ok df_ids "A" "a" "B" "b" (Some "R") 2 None None
              None None None None None new_connector).1 = false.
Proof.
  apply (save_rel_df_needs_edge_attribute drv_ok df_ids "A" "a" "B" "b"
           (Some "R") 2 None None None None None None None new_connector).
  repeat constructor.
Defined.

Lemma save_rel_df_rejects_before_sending_witness :
  ∃ msg,
    save_rel_df drv_ok df3 "A" "x" "B" "b" (Some "R") 2 None None None None
      None None None new_connector
    = (Raise (KeyError msg), new_connector).
Proof.
  apply (proj1 (save_rel_df_rejects_before_sending drv_ok df3 "A" "x" "B" "b"
                  "R" 2 None None None None None None None new_connector)).
  reflexivity.
Defined.

Example consolidate_pending_connector :
  current_bookmarks (_consolidate_parallel_bookmarks pending_connector)
    (Some "neo4j") = ["t1"; "t2"]
  ∧ current_bookmarks (_consolidate_parallel_bookmarks pending_connector) None
    = ["keep"].
Proof. by vm_compute. Qed.

Example shape_error_message :
  save_nodes_np drv_ok array3 ["a"; "b"] "P" None 2 None None new_connector
  = (Raise (ValueError "array must have shape (n, m[, ...]) with m >= 2 and m == len(attributes), but had shape (3, 3)"),
     new_connector)
  ∧ repr_shape [3] = "(3,)" ∧ repr_shape [] = "()".
Proof. by vm_compute. Qed.
